(** * dbBuild: a file-per-record JSON store (main.go)

    Shallow embedding of the storage driver of [main.go] -- [New],
    [Driver.Write], [Driver.Read], [Driver.ReadAll], [Driver.Delete],
    [getOrCreateMutext] and [stat] -- over a model of the parts of the Go
    standard library they call ([path/filepath], [os], [io/ioutil],
    [encoding/json]).

    Modelling decisions, all of them about the library side:
    - a Go [string] is a [string]; [filepath.Join] and [filepath.Clean] are
      the Unix versions, working on the ['/']-separated elements;
    - the file system is a finite map from resolved absolute paths (lists of
      names, the root first) to nodes, a node being a regular file with its
      bytes or a directory; there are no symbolic links, no other kinds of
      node, and every access is permitted;
    - a path string is resolved against the working directory of the process
      element by element; every path the driver hands to the operating
      system is a cleaned path followed by a suffix without separator, for
      which this is what the kernel does;
    - [encoding/json] is an interface ([Json]) the stored type implements;
    - the mutexes are held by nobody else when a call starts (one call at a
      time), so that [Lock] and [Unlock] return at once; the lock registry
      [d.mutexes] is kept, as the set of names that own a mutex. *)

From Stdlib Require Import Ascii.
From stdpp Require Import gmap strings list fin_maps sorting.

(** ** Strings *)

Definition Separator : ascii := "/"%char.

(** [strings.HasPrefix s "/"], that is [os.IsPathSeparator(s[0])]. *)
Definition rooted (s : string) : bool :=
  match s with
  | String c _ => bool_decide (c = Separator)
  | EmptyString => false
  end.

(** No separator occurs in [s]. *)
Fixpoint slashfree (s : string) : bool :=
  match s with
  | EmptyString => true
  | String c s' => negb (bool_decide (c = Separator)) && slashfree s'
  end.

(** [strings.Split(s, "/")]: the elements between separators; never empty. *)
Fixpoint split (s : string) : list string :=
  match s with
  | EmptyString => [EmptyString]
  | String c s' =>
      if bool_decide (c = Separator) then EmptyString :: split s'
      else match split s' with
           | h :: t => String c h :: t
           | [] => [String c EmptyString]
           end
  end.

(** [strings.Join(l, "/")]. *)
Fixpoint join (l : list string) : string :=
  match l with
  | [] => ""
  | [a] => a
  | a :: l' => a +:+ "/" +:+ join l'
  end.

(** ** path/filepath *)

(** An element that names an entry: not empty, not ["."], not [".."]. *)
Definition named (c : string) : bool :=
  negb (bool_decide (c = "")) && negb (bool_decide (c = "."))
  && negb (bool_decide (c = "..")).

(** A legal file name: a named element without separator. *)
Definition plain (c : string) : bool := named c && slashfree c.

(** One round of the loop of [filepath.Clean]; [out] is the output so far,
    last element first.  An empty element or ["."] is dropped; [".."] removes
    the last element when there is one to remove ([out.w > dotdot]), is kept
    when the path is not rooted, and is dropped at the root; any other
    element is copied. *)
Definition cstep (isRooted : bool) (out : list string) (c : string) : list string :=
  if bool_decide (c = "") || bool_decide (c = ".") then out
  else if bool_decide (c = "..") then
    match out with
    | t :: out' =>
        if bool_decide (t = "..") then (if isRooted then out else c :: out)
        else out'
    | [] => if isRooted then out else c :: out
    end
  else c :: out.

Definition render (isRooted : bool) (out : list string) : string :=
  if isRooted then "/" +:+ join (reverse out)
  else match out with
       | [] => "."
       | _ => join (reverse out)
       end.

(** [filepath.Clean(path)]. *)
Definition Clean (p : string) : string :=
  if bool_decide (p = "") then "."
  else render (rooted p) (fold_left (cstep (rooted p)) (split p) []).

(** [filepath.Join(a, b)]: empty leading elements are ignored, the rest is
    joined with the separator and cleaned. *)
Definition Join (a b : string) : string :=
  if bool_decide (a = "") then
    (if bool_decide (b = "") then "" else Clean b)
  else Clean (a +:+ "/" +:+ b).

(** ** Path resolution *)

Abbreviation path := (list string).

(** One step of the walk; the position is kept last name first. *)
Definition rstep (pos : list string) (c : string) : list string :=
  if bool_decide (c = "") || bool_decide (c = ".") then pos
  else if bool_decide (c = "..") then tail pos
  else c :: pos.

Definition walk (pos : list string) (p : string) : list string :=
  fold_left rstep (split p) pos.

(** Where the walk starts: at the root for a rooted path, in the working
    directory otherwise. *)
Definition start (cwd : path) (p : string) : list string :=
  if rooted p then [] else reverse cwd.

(** The absolute path a path string denotes for a process whose working
    directory is [cwd]. *)
Definition resolve (cwd : path) (p : string) : path :=
  reverse (walk (start cwd p) p).

(** The last element of a path string. *)
Definition lastName (p : string) : string := default "" (last (split p)).

(** The output of the loop of [Clean] on [p]. *)
Definition outOf (p : string) : list string :=
  fold_left (cstep (rooted p)) (split p) [].

(** What the loop of [Clean] keeps true of its output: the elements have no
    separator, none is empty or ["."], and none is [".."] in a rooted path. *)
Definition clean_out (r : bool) (out : list string) : Prop :=
  Forall (λ c, slashfree c = true ∧ c ≠ "" ∧ c ≠ "." ∧ (r = true → c ≠ "..")) out.

(** The walk along a cleaned output. *)
Definition replay (out pos : list string) : list string :=
  fold_left rstep (reverse out) pos.

(** ** The file system *)

Inductive node : Type :=
| File (data : string)
| Dir.

Global Instance node_eq_dec : EqDecision node.
Proof. solve_decision. Defined.

(** The errors of the system calls, the four messages the driver makes with
    [fmt.Errorf], and the two failures of [encoding/json]. *)
Inductive error : Type :=
| ENOENT
| ENOTDIR
| EISDIR
| EINVAL
| ENOTEMPTY
| EBUSY
| MissingCollection      (* missing collection - no place to save record *)
| MissingResourceSave    (* missing resource - unable to save record! *)
| MissingResourceRead    (* missing resource - unable to read record! *)
| UnableToFind (name : string) (* unable to find file or directory name %v *)
| MarshalError
| UnmarshalError.

Global Instance error_eq_dec : EqDecision error.
Proof. solve_decision. Defined.

(** [os.IsNotExist(err)]. *)
Definition IsNotExist (e : error) : bool := bool_decide (e = ENOENT).

(** The error kinds of the specification. *)
Definition validation_error (e : error) : Prop :=
  e = MissingCollection ∨ e = MissingResourceSave ∨ e = MissingResourceRead.

Definition not_found_error (e : error) : Prop :=
  e = ENOENT ∨ ∃ name, e = UnableToFind name.

Inductive Res (A : Type) : Type :=
| Ok (a : A)
| Err (e : error).
Arguments Ok {A} a.
Arguments Err {A} e.

(** The state a call runs in: the lock registry of the driver
    ([d.mutexes], the collections that own a mutex), the working directory
    of the process, and the file system. *)
Record World : Type := mkWorld {
  mutexes : gset string;
  cwd : path;
  files : gmap path node
}.

Definition set_files (fs : gmap path node) (w : World) : World :=
  {| mutexes := mutexes w; cwd := cwd w; files := fs |}.

Definition set_mutexes (ms : gset string) (w : World) : World :=
  {| mutexes := ms; cwd := cwd w; files := files w |}.

(** State and error monad: an error ends the call, the state reached so far
    stays. *)
Definition M (A : Type) : Type := World → Res A * World.

Definition ret {A} (a : A) : M A := λ w, (Ok a, w).
Definition raise {A} (e : error) : M A := λ w, (Err e, w).
Definition bind {A B} (m : M A) (f : A → M B) : M B :=
  λ w, match m w with
       | (Ok a, w') => f a w'
       | (Err e, w') => (Err e, w')
       end.
(** An operation that only looks at the state. *)
Definition query {A} (f : World → Res A) : M A := λ w, (f w, w).
(** An operation that replaces the file system, or fails and leaves it. *)
Definition update (f : World → Res (gmap path node)) : M unit :=
  λ w, match f w with
       | Ok fs => (Ok tt, set_files fs w)
       | Err e => (Err e, w)
       end.

Notation "'let*' x ':=' m 'in' k" := (bind m (λ x, k))
  (at level 10, x name, m at level 100, k at level 200, only parsing).
Notation "'run' m 'in' k" := (bind m (λ _, k))
  (at level 10, m at level 100, k at level 200, only parsing).

Definition isFile (fs : gmap path node) (k : path) : bool :=
  match fs !! k with Some (File _) => true | _ => false end.

Definition isDir (fs : gmap path node) (k : path) : bool :=
  match fs !! k with Some Dir => true | _ => false end.

(** The proper prefixes of a path, the root first. *)
Definition ancestors (k : path) : list path :=
  (λ n, take n k) <$> seq 0 (length k).

(** The walk to [k] meets a regular file before its last name. *)
Definition blocked (fs : gmap path node) (k : path) : bool :=
  existsb (isFile fs) (ancestors k).

Definition parent (k : path) : path := take (length k - 1) k.

(** What the kernel finds at [k]. *)
Definition access (fs : gmap path node) (k : path) : Res node :=
  if blocked fs k then Err ENOTDIR
  else match fs !! k with
       | Some n => Ok n
       | None => Err ENOENT
       end.

(** [k'] is [k] or lies below it. *)
Definition under (k k' : path) : Prop := k `prefix_of` k'.

(** The file system without [k] and everything below it. *)
Definition prune (k : path) (fs : gmap path node) : gmap path node :=
  filter (λ kv, ¬ under k kv.1) fs.

(** The file system without what lies strictly below [k]. *)
Definition empty_out (k : path) (fs : gmap path node) : gmap path node :=
  filter (λ kv, kv.1 = k ∨ ¬ under k kv.1) fs.

(** The name of [k'] when it is an entry of the directory [k]. *)
Definition entry_name (k k' : path) : option string :=
  if bool_decide (parent k' = k ∧ length k' = S (length k)) then last k'
  else None.

(** The names in directory [k], in the order [ioutil.ReadDir] gives them
    (sorted by name). *)
Definition entries (fs : gmap path node) (k : path) : list string :=
  merge_sort String.le (omap (λ kv, entry_name k kv.1) (map_to_list fs)).

(** [os.FileInfo], as far as the driver looks at it. *)
Record FileInfo : Type := mkFileInfo {
  Name : string;
  IsDir : bool;
  IsRegular : bool
}.

Definition info (name : string) (n : node) : FileInfo :=
  match n with
  | File _ => mkFileInfo name false true
  | Dir => mkFileInfo name true false
  end.

Definition base (k : path) : string := default "/" (last k).

(** ** os and io/ioutil *)

Definition os_Stat (p : string) : M FileInfo :=
  query (λ w,
    if bool_decide (p = "") then Err ENOENT
    else let k := resolve (cwd w) p in
         match access (files w) k with
         | Ok n => Ok (info (base k) n)
         | Err e => Err e
         end).

(** [os.MkdirAll(p, 0755)]: fails, creating nothing, when [p] or a prefix of
    it is a regular file; otherwise every missing directory on the way to
    [p] and [p] itself are created. *)
Definition mkdirAll (fs : gmap path node) (k : path) : Res (gmap path node) :=
  if existsb (isFile fs) (ancestors k ++ [k]) then Err ENOTDIR
  else Ok (foldr (λ k', insert k' Dir) fs (ancestors k ++ [k])).

Definition os_MkdirAll (p : string) : M unit :=
  update (λ w,
    if bool_decide (p = "") then Err ENOENT
    else mkdirAll (files w) (resolve (cwd w) p)).

(** [ioutil.WriteFile(p, data, 0644)]: open with [O_WRONLY|O_CREATE|O_TRUNC],
    write, close. *)
Definition ioutil_WriteFile (p : string) (data : string) : M unit :=
  update (λ w,
    if bool_decide (p = "") then Err ENOENT
    else let k := resolve (cwd w) p in
         let fs := files w in
         if blocked fs k then Err ENOTDIR
         else match fs !! k with
              | Some Dir => Err EISDIR
              | Some (File _) => Ok (<[k := File data]> fs)
              | None => if isDir fs (parent k) then Ok (<[k := File data]> fs)
                        else Err ENOENT
              end).

Definition ioutil_ReadFile (p : string) : M string :=
  query (λ w,
    if bool_decide (p = "") then Err ENOENT
    else match access (files w) (resolve (cwd w) p) with
         | Ok (File data) => Ok data
         | Ok Dir => Err EISDIR
         | Err e => Err e
         end).

Definition ioutil_ReadDir (p : string) : M (list FileInfo) :=
  query (λ w,
    if bool_decide (p = "") then Err ENOENT
    else let k := resolve (cwd w) p in
         let fs := files w in
         match access fs k with
         | Ok Dir =>
             Ok ((λ n, info n (default Dir (fs !! (k ++ [n])))) <$> entries fs k)
         | Ok (File _) => Err ENOTDIR
         | Err e => Err e
         end).

(** A directory and all below it, moved from [ko] to [kn]. *)
Definition move (ko kn : path) (fs : gmap path node) : gmap path node :=
  list_to_map ((λ kv, (kn ++ drop (length ko) kv.1, kv.2))
                <$> map_to_list (filter (λ kv, under ko kv.1) fs))
  ∪ prune ko fs.

(** [os.Rename(old, new)], the system call [rename]. *)
Definition os_Rename (old new : string) : M unit :=
  update (λ w,
    if bool_decide (old = "") || bool_decide (new = "") then Err ENOENT
    else let ko := resolve (cwd w) old in
         let kn := resolve (cwd w) new in
         let fs := files w in
         if blocked fs ko || blocked fs kn then Err ENOTDIR
         else match fs !! ko with
              | None => Err ENOENT
              | Some (File data) =>
                  match fs !! kn with
                  | Some Dir => Err EISDIR
                  | Some (File _) => Ok (<[kn := File data]> (delete ko fs))
                  | None =>
                      if isDir fs (parent kn)
                      then Ok (<[kn := File data]> (delete ko fs))
                      else Err ENOENT
                  end
              | Some Dir =>
                  if bool_decide (ko = kn) then Ok fs
                  else if bool_decide (under ko kn) then Err EINVAL
                  else match fs !! kn with
                       | Some (File _) => Err ENOTDIR
                       | Some Dir =>
                           match entries fs kn with
                           | [] => Ok (move ko kn fs)
                           | _ => Err ENOTEMPTY
                           end
                       | None =>
                           if isDir fs (parent kn) then Ok (move ko kn fs)
                           else Err ENOENT
                       end
              end).

(** [endsWithDot] of [os/removeall_at.go]: the path is ["."] or ends in
    ["/."]. *)
Fixpoint endsSlashDot (s : string) : bool :=
  match s with
  | EmptyString => false
  | String _ s' => bool_decide (s = "/.") || endsSlashDot s'
  end.

Definition endsWithDot (p : string) : bool :=
  bool_decide (p = ".") || endsSlashDot p.

(** [os.RemoveAll(p)]: nothing to do for the empty path and for a path that
    does not exist; [EINVAL] for a path that ends with a dot; otherwise all
    below [p] is removed and then [p] itself, which the kernel refuses for
    the root directory and for a path whose last element is [".."]. *)
Definition os_RemoveAll (p : string) : M unit :=
  λ w,
    if bool_decide (p = "") then (Ok tt, w)
    else if endsWithDot p then (Err EINVAL, w)
    else let k := resolve (cwd w) p in
         let fs := files w in
         if blocked fs k then (Err ENOTDIR, w)
         else match fs !! k with
              | None => (Ok tt, w)
              | Some _ =>
                  if bool_decide (k = [])
                  then (Err EBUSY, set_files (empty_out k fs) w)
                  else if bool_decide (last (split p) = Some "..")
                  then (Err ENOTEMPTY, set_files (empty_out k fs) w)
                  else (Ok tt, set_files (prune k fs) w)
              end.

(** ** encoding/json *)

(** What the driver needs of a stored type: [json.MarshalIndent(v, prefix,
    indent)] and [json.Unmarshal(data, &v)]; [None] is a returned error. *)
Class Json (V : Type) : Type := {
  json_MarshalIndent : V → string → string → option string;
  json_Unmarshal : string → option V
}.

Definition tab : string := String "009"%char "".
Definition newline : string := String "010"%char "".

(** ** The driver *)

Record Driver : Type := mkDriver { dir : string }.

(** [New(dir, options)]: the root is cleaned, the registry is new, and the
    root directory is made when [os.Stat] cannot find it.  The driver is
    returned with the error of [os.MkdirAll]. *)
Definition New (dir0 : string) : World → Driver * (Res unit * World) :=
  λ w,
    let dir := Clean dir0 in
    let driver := mkDriver dir in
    let w := set_mutexes ∅ w in
    match os_Stat dir w with
    | (Ok _, w') => (driver, (Ok tt, w'))
    | (Err _, w') => (driver, os_MkdirAll dir w')
    end.

Definition getOrCreateMutext (collections : string) : M unit :=
  λ w,
    if bool_decide (collections ∈ mutexes w) then (Ok tt, w)
    else (Ok tt, set_mutexes ({[collections]} ∪ mutexes w) w).

(** [stat(path)]: the bare path, and the path with [.json] when the bare
    path does not exist. *)
Definition stat (p : string) : M FileInfo :=
  λ w,
    match os_Stat p w with
    | (Err e, w') =>
        if IsNotExist e then os_Stat (p +:+ ".json") w' else (Err e, w')
    | r => r
    end.

Section Driver.
Context {V : Type} `{!Json V}.

Definition Write (d : Driver) (collections resource : string) (v : V) : M unit :=
  if bool_decide (collections = "") then raise MissingCollection
  else if bool_decide (resource = "") then raise MissingResourceSave
  else
    run getOrCreateMutext collections in
    let dir := Join (dir d) collections in
    let fnlPath := Join dir (resource +:+ ".json") in
    let tmpPath := fnlPath +:+ ".tmp" in
    run os_MkdirAll dir in
    match json_MarshalIndent v "" tab with
    | None => raise MarshalError
    | Some b =>
        let b := b +:+ newline in
        run ioutil_WriteFile tmpPath b in
        os_Rename tmpPath fnlPath
    end.

Definition Read (d : Driver) (collections resource : string) : M V :=
  if bool_decide (collections = "") then raise MissingCollection
  else if bool_decide (resource = "") then raise MissingResourceRead
  else
    let record := Join (dir d) collections in
    let* _ := stat record in
    let* b := ioutil_ReadFile (record +:+ ".json") in
    match json_Unmarshal b with
    | None => raise UnmarshalError
    | Some v => ret v
    end.
End Driver.

(** The loop of [ReadAll]: the first file that cannot be read ends it. *)
Fixpoint readEach (dir : string) (files : list FileInfo) (records : list string)
  : M (list string) :=
  match files with
  | [] => ret records
  | file :: files' =>
      let* b := ioutil_ReadFile (Join dir (Name file)) in
      readEach dir files' (records ++ [b])
  end.

Definition ReadAll (d : Driver) (collections : string) : M (list string) :=
  if bool_decide (collections = "") then raise MissingCollection
  else
    let dir := Join (dir d) collections in
    let* _ := stat dir in
    λ w,
      let files := match ioutil_ReadDir dir w with
                   | (Ok files, _) => files
                   | (Err _, _) => []
                   end in
      readEach dir files [] w.

Definition Delete (d : Driver) (collections resource : string) : M unit :=
  let path := Join collections resource in
  run getOrCreateMutext collections in
  let dir := Join (dir d) path in
  λ w,
    match stat dir w with
    | (Err _, w') => (Err (UnableToFind path), w')
    | (Ok fi, w') =>
        if IsDir fi then os_RemoveAll dir w'
        else if IsRegular fi then os_RemoveAll (dir +:+ ".json") w'
        else (Ok tt, w')
    end.

(** ** Vocabulary of the statements *)

(** [os.Stat] finds something at the path [p]. *)
Definition exists_at (w : World) (p : string) : Prop :=
  ∃ fi, (os_Stat p w).1 = Ok fi.

(** The bytes of the regular file at [k]. *)
Definition content (fs : gmap path node) (k : path) : string :=
  match fs !! k with
  | Some (File data) => data
  | _ => ""
  end.

(** Two file systems hold the same regular files with the same bytes. *)
Definition same_files (fs fs' : gmap path node) : Prop :=
  ∀ k data, fs' !! k = Some (File data) ↔ fs !! k = Some (File data).

(** Every entry but the root lies in a directory. *)
Definition wf_fs (fs : gmap path node) : bool :=
  forallb (λ kv, bool_decide (kv.1 = []) || isDir fs (parent kv.1))
          (map_to_list fs).

(** ** A stored type to run the driver on

    [Text s] is a Go string of letters, digits and spaces, which
    [encoding/json] writes between quotes as it is; a string that would need
    escapes is refused by this encoder.  [Unsupported] stands for a value
    [encoding/json] cannot encode (a channel, a function). *)

Inductive sample : Type :=
| Text (s : string)
| Unsupported.

Definition quote : ascii := "034"%char.

Definition letter (a : ascii) : bool :=
  let n := nat_of_ascii a in
  (65 <=? n) && (n <=? 90) || (97 <=? n) && (n <=? 122)
  || (48 <=? n) && (n <=? 57) || (n =? 32).

Definition blank (a : ascii) : bool :=
  let n := nat_of_ascii a in (n =? 32) || (n =? 9) || (n =? 10) || (n =? 13).

Fixpoint all_chars (f : ascii → bool) (s : string) : bool :=
  match s with
  | EmptyString => true
  | String a s' => f a && all_chars f s'
  end.

(** The letters up to the closing quote, and what follows it. *)
Fixpoint quoted (s : string) : option (string * string) :=
  match s with
  | EmptyString => None
  | String a s' =>
      if bool_decide (a = quote) then Some (EmptyString, s')
      else if letter a then
        match quoted s' with
        | Some (t, rest) => Some (String a t, rest)
        | None => None
        end
      else None
  end.

Definition sample_MarshalIndent (v : sample) (prefix indent : string) : option string :=
  match v with
  | Text s =>
      if all_chars letter s then Some (String quote (s +:+ String quote ""))
      else None
  | Unsupported => None
  end.

Definition sample_Unmarshal (data : string) : option sample :=
  match data with
  | String a s =>
      if bool_decide (a = quote) then
        match quoted s with
        | Some (t, rest) => if all_chars blank rest then Some (Text t) else None
        | None => None
        end
      else None
  | EmptyString => None
  end.

Global Instance sample_json : Json sample := {|
  json_MarshalIndent := sample_MarshalIndent;
  json_Unmarshal := sample_Unmarshal
|}.

(** The process of the examples: working directory [/home], nothing else on
    the disk. *)
Definition boot : World :=
  mkWorld ∅ ["home"] {[ [] := Dir; ["home"] := Dir ]}.

(** The paths of a record, as [Write] and [Delete] compute them. *)
Definition collectionPath (d : Driver) (collections : string) : string :=
  Join (dir d) collections.

Definition finalPath (d : Driver) (collections resource : string) : string :=
  Join (collectionPath d collections) (resource +:+ ".json").

Definition tempPath (d : Driver) (collections resource : string) : string :=
  finalPath d collections resource +:+ ".tmp".

Definition targetPath (d : Driver) (collections resource : string) : string :=
  Join (dir d) (Join collections resource).

(** [os.Stat] reports that nothing exists at the path [p]. *)
Definition absent_at (w : World) (p : string) : Prop :=
  (os_Stat p w).1 = Err ENOENT.

(** ** The stores of the examples *)

(** [New("./data", nil)] in the process [boot]. *)
Definition data_driver : Driver := (New "./data" boot).1.
Definition data_world : World := (New "./data" boot).2.2.

(** After [Write("users", "john", "John")]. *)
Definition john_world : World :=
  (Write data_driver "users" "john" (Text "John") data_world).2.

(** After a second [Write], into the collection [users/john]: the record
    [john] of [users] and the directory [users/john] stand side by side. *)
Definition clash_world : World :=
  (Write data_driver "users/john" "x" (Text "X") john_world).2.

(** A store without the collection [users], with a regular file
    [users.json] in the root. *)
Definition stray_world : World :=
  mkWorld ∅ ["home"]
    {[ [] := Dir; ["home"] := Dir; ["home"; "data"] := Dir;
       ["home"; "data"; "users.json"]
         := File (String quote ("Stray" +:+ String quote newline)) ]}.

(** [New("./", nil)], the store of [main]: its root is the working
    directory. *)
Definition here_driver : Driver := (New "./" boot).1.
Definition here_world : World := (New "./" boot).2.2.

(** A process whose store path [data] is a regular file. *)
Definition file_root_world : World :=
  mkWorld ∅ ["home"] {[ [] := Dir; ["home"] := Dir; ["home"; "data"] := File "notes" ]}.

(** After [Write("users/john.json", "x", "X")]: the collection
    [users/john.json] is a directory where the record [john] of [users]
    would be stored. *)
Definition nested_world : World :=
  (Write data_driver "users/john.json" "x" (Text "X") data_world).2.

(** A collection [users] that holds a regular file [john], without
    [.json]. *)
Definition bare_world : World :=
  mkWorld ∅ ["home"]
    {[ [] := Dir; ["home"] := Dir; ["home"; "data"] := Dir;
       ["home"; "data"; "users"] := Dir;
       ["home"; "data"; "users"; "john"] := File "John" ]}.

(** After a second record, [Write("users", "bob", "Bob")]. *)
Definition pair_world : World :=
  (Write data_driver "users" "bob" (Text "Bob") john_world).2.

(** * Properties *)

(** ** Strings and their elements *)

Lemma app_nil_l_str (t : string) : "" +:+ t = t.
Proof. reflexivity. Qed.

Lemma app_cons_str c (s t : string) : String c s +:+ t = String c (s +:+ t).
Proof. reflexivity. Qed.

Lemma app_assoc_str (a b c : string) : (a +:+ b) +:+ c = a +:+ b +:+ c.
Proof.
  induction a as [|x a IH]; [done |]. rewrite !app_cons_str. by f_equal.
Qed.

Lemma split_nonempty (s : string) : split s ≠ [].
Proof.
  destruct s as [|c s]; simpl; [done |].
  case_bool_decide; [done |]. by destruct (split s).
Qed.

Lemma split_snoc (s : string) : ∃ l c, split s = l ++ [c].
Proof.
  destruct (split s) as [|h t] eqn:E using rev_ind; [by apply split_nonempty in E |].
  eauto.
Qed.

Lemma split_slashfree (s : string) : slashfree s = true → split s = [s].
Proof.
  induction s as [|c s IH]; simpl; [done |].
  intros [Hc Hs]%andb_true_iff. apply negb_true_iff in Hc.
  rewrite Hc, (IH Hs). done.
Qed.

Lemma split_elements (s : string) : Forall (λ c, slashfree c = true) (split s).
Proof.
  induction s as [|c s IH]; simpl; [by repeat constructor |].
  case_bool_decide as Hc.
  - by constructor.
  - destruct (split s) as [|h t]; inversion IH; subst; constructor; simpl;
      rewrite ?bool_decide_eq_false_2 by done; auto.
Qed.

Lemma split_app_sep (a b : string) : split (a +:+ "/" +:+ b) = split a ++ split b.
Proof.
  induction a as [|c a IH]; [done |].
  rewrite app_cons_str. simpl. rewrite IH. case_bool_decide; [done |].
  destruct (split a) as [|h t] eqn:E; [by apply split_nonempty in E | done].
Qed.

Lemma split_app_suffix (p s : string) l c :
  slashfree s = true → split p = l ++ [c] → split (p +:+ s) = l ++ [c +:+ s].
Proof.
  intros Hs. revert l c. induction p as [|x p IH]; intros l c.
  - simpl. intros E. destruct l as [|? [|]]; simplify_eq/=. by apply split_slashfree.
  - rewrite app_cons_str. simpl. case_bool_decide as Hx.
    + intros E. destruct l as [|h l]; simplify_eq/=.
      * exfalso. by eapply split_nonempty.
      * by rewrite (IH l c).
    + destruct (split p) as [|h t] eqn:E; [by apply split_nonempty in E |].
      intros E'. destruct l as [|h' l]; simplify_eq/=.
      * by rewrite (IH [] h eq_refl).
      * by rewrite (IH (h :: l) c eq_refl).
Qed.

Lemma split_join (l : list string) :
  l ≠ [] → Forall (λ c, slashfree c = true) l → split (join l) = l.
Proof.
  induction l as [|a l IH]; [done |]. intros _ Hl.
  inversion Hl as [|?? Ha Hl']; subst.
  destruct l as [|b l].
  - simpl. by apply split_slashfree.
  - change (join (a :: b :: l)) with (a +:+ "/" +:+ join (b :: l)).
    rewrite split_app_sep, (split_slashfree a Ha), IH; done.
Qed.

Lemma join_snoc_suffix (l : list string) c s :
  join (l ++ [c]) +:+ s = join (l ++ [c +:+ s]).
Proof.
  induction l as [|a l IH]; [done |].
  destruct l as [|b l].
  - simpl. by rewrite !app_assoc_str.
  - change (join (a :: ?x)) with (a +:+ "/" +:+ join x) in *.
    simpl app in *.
    change (join (a :: b :: ?x)) with (a +:+ "/" +:+ join (b :: x)).
    rewrite !app_assoc_str. by rewrite IH.
Qed.

Lemma rooted_app (a b : string) : a ≠ "" → rooted (a +:+ b) = rooted a.
Proof. by destruct a. Qed.

Lemma rooted_join (l : list string) c :
  c ≠ "" → slashfree c = true → rooted (join (c :: l)) = false.
Proof.
  intros Hc Hs. destruct c as [|x c]; [done |].
  simpl in Hs. apply andb_true_iff in Hs as [Hx _]. apply negb_true_iff in Hx.
  destruct l; simpl; rewrite ?app_cons_str; done.
Qed.

Lemma slashfree_app (a b : string) :
  slashfree (a +:+ b) = slashfree a && slashfree b.
Proof.
  induction a as [|x a IH]; [done |].
  rewrite app_cons_str. simpl. by rewrite IH, andb_assoc.
Qed.

Lemma named_app (c s : string) : named c = true → named (c +:+ s) = true.
Proof.
  unfold named. intros H.
  destruct c as [|x [|y [|z c]]]; [done | ..]; rewrite ?app_cons_str, ?app_nil_l_str.
  - destruct s as [|z [|z' s]]; [done | ..];
    repeat case_bool_decide; simplify_eq/=; done.
  - destruct s as [|z s]; [done |];
    repeat case_bool_decide; simplify_eq/=; done.
  - repeat case_bool_decide; simplify_eq/=; done.
Qed.

(** ** Clean and the walk *)

Lemma replay_cons c out pos : replay (c :: out) pos = rstep (replay out pos) c.
Proof. unfold replay. by rewrite reverse_cons, fold_left_app. Qed.

Lemma rstep_named pos c : named c = true → rstep pos c = c :: pos.
Proof.
  unfold named, rstep. intros H.
  repeat case_bool_decide; simplify_eq/=; done.
Qed.

Lemma cstep_named r out c : named c = true → cstep r out c = c :: out.
Proof.
  unfold named, cstep. intros H.
  repeat case_bool_decide; simplify_eq/=; done.
Qed.

Lemma cstep_clean_out r out c :
  slashfree c = true → clean_out r out → clean_out r (cstep r out c).
Proof.
  intros Hc Hout. unfold cstep.
  case_bool_decide as H1; [done |]. case_bool_decide as H2; [done |]. simpl.
  case_bool_decide as H3.
  - destruct out as [|t out']; [destruct r; [done |] |].
    + subst. by repeat constructor.
    + case_bool_decide.
      * destruct r; [done |]. subst. constructor; [done | done].
      * by inversion Hout.
  - constructor; [| done]. repeat split; try done. 
Qed.

Lemma fold_cstep_clean_out r l out :
  Forall (λ c, slashfree c = true) l → clean_out r out →
  clean_out r (fold_left (cstep r) l out).
Proof.
  intros Hl. revert out. induction Hl as [|c l Hc Hl IH]; intros out Hout; [done |].
  simpl. apply IH. by apply cstep_clean_out.
Qed.

Lemma cstep_replay r out pos c :
  clean_out r out → (r = true → pos = []) →
  rstep (replay out pos) c = replay (cstep r out c) pos.
Proof.
  intros Hout Hpos. unfold cstep.
  destruct (decide (c = "")) as [-> | H1]; [done |].
  destruct (decide (c = ".")) as [-> | H2]; [done |].
  rewrite (bool_decide_eq_false_2 (c = "")), (bool_decide_eq_false_2 (c = ".")) by done.
  cbv [orb]. cbv iota.
  destruct (decide (c = "..")) as [-> | H3].
  2: { rewrite (bool_decide_eq_false_2 (c = "..")) by done. by rewrite replay_cons. }
  rewrite (bool_decide_eq_true_2 (".." = "..")) by done. 
  destruct out as [|t out'].
  - destruct r; [| by rewrite replay_cons].
    rewrite (Hpos eq_refl). done.
  - inversion Hout as [|?? (Ht1 & Ht2 & Ht3 & Ht4) Hout']; subst.
    case_bool_decide as E3.
    + destruct r; [by destruct Ht4 | by rewrite (replay_cons "..")].
    + rewrite replay_cons, (rstep_named _ t).
      * done.
      * unfold named. by rewrite !bool_decide_eq_false_2.
Qed.

Lemma fold_cstep_replay r l out pos :
  Forall (λ c, slashfree c = true) l → clean_out r out → (r = true → pos = []) →
  fold_left rstep l (replay out pos) = replay (fold_left (cstep r) l out) pos.
Proof.
  intros Hl. revert out.
  induction Hl as [|c l Hc Hl IH]; intros out Hout Hpos; [done |].
  simpl. rewrite (cstep_replay r) by done.
  apply IH; [by apply cstep_clean_out | done].
Qed.

Lemma clean_out_slashfree r out :
  clean_out r out → Forall (λ c, slashfree c = true) (reverse out).
Proof.
  intros H. apply Forall_reverse. eapply Forall_impl; [exact H |]. by intros ? [? _].
Qed.

Lemma rooted_render r out : clean_out r out → rooted (render r out) = r.
Proof.
  intros Hout. unfold render. destruct r; [done |].
  destruct out as [|t out']; [done |].
  destruct (reverse (t :: out')) as [|a l] eqn:E.
  { apply (f_equal length) in E. rewrite length_reverse in E. done. }
  assert (a ∈ t :: out') as Ha.
  { apply elem_of_reverse. rewrite E. left. }
  unfold clean_out in Hout. rewrite Forall_forall in Hout.
  destruct (Hout a Ha) as (? & ? & _). by apply rooted_join.
Qed.

Lemma walk_render r out pos : clean_out r out → walk pos (render r out) = replay out pos.
Proof.
  intros Hout. unfold walk, render, replay.
  pose proof (clean_out_slashfree _ _ Hout) as Hs.
  destruct r.
  - destruct (reverse out) as [|a l] eqn:E; [done |].
    change ("/" +:+ join (a :: l)) with ("" +:+ "/" +:+ join (a :: l)).
    rewrite split_app_sep, split_join by done. done.
  - destruct out as [|t out']; [done |].
    rewrite split_join; [done | | done].
    rewrite reverse_cons. by destruct (reverse out').
Qed.

Lemma Clean_render p : p ≠ "" → Clean p = render (rooted p) (outOf p).
Proof. intros Hp. unfold Clean. by rewrite bool_decide_eq_false_2. Qed.

Lemma outOf_clean p : clean_out (rooted p) (outOf p).
Proof. apply fold_cstep_clean_out; [apply split_elements | constructor]. Qed.

Lemma walk_Clean p pos :
  p ≠ "" → (rooted p = true → pos = []) → walk pos (Clean p) = walk pos p.
Proof.
  intros Hp Hpos. rewrite Clean_render by done.
  rewrite walk_render by apply outOf_clean.
  unfold outOf, walk. change pos with (replay [] pos) at 2.
  symmetry. apply fold_cstep_replay; [apply split_elements | constructor | done].
Qed.

Lemma rooted_Clean p : p ≠ "" → rooted (Clean p) = rooted p.
Proof.
  intros Hp. rewrite Clean_render by done. apply rooted_render, outOf_clean.
Qed.

Lemma resolve_Clean cwd p : p ≠ "" → resolve cwd (Clean p) = resolve cwd p.
Proof.
  intros Hp. unfold resolve, start. rewrite rooted_Clean by done.
  rewrite walk_Clean; [done | done |]. by intros ->.
Qed.

(** ** The paths of the driver *)

Lemma plain_named c : plain c = true → named c = true.
Proof. unfold plain. by intros [? _]%andb_true_iff. Qed.

Lemma plain_slashfree c : plain c = true → slashfree c = true.
Proof. unfold plain. by intros [_ ?]%andb_true_iff. Qed.

Lemma named_nonempty c : named c = true → c ≠ "".
Proof. by intros H ->. Qed.

Lemma plain_not_rooted c : plain c = true → rooted c = false.
Proof.
  intros H. destruct c as [|x c]; [done |].
  apply plain_slashfree in H. simpl in H.
  apply andb_true_iff in H as [H _]. by apply negb_true_iff in H.
Qed.

Lemma walk_app_sep pos a b : walk pos (a +:+ "/" +:+ b) = walk (walk pos a) b.
Proof. unfold walk. by rewrite split_app_sep, fold_left_app. Qed.

Lemma walk_plain pos c : plain c = true → walk pos c = c :: pos.
Proof.
  intros H. unfold walk. rewrite split_slashfree by by apply plain_slashfree.
  simpl. by apply rstep_named, plain_named.
Qed.

Lemma walk_empty pos : walk pos "" = pos.
Proof. done. Qed.

Lemma rooted_Join a b : a ≠ "" → rooted (Join a b) = rooted a.
Proof.
  intros Ha. unfold Join. rewrite bool_decide_eq_false_2 by done.
  rewrite rooted_Clean by by destruct a. by apply rooted_app.
Qed.

Lemma walk_Join pos a b :
  a ≠ "" → (rooted a = true → pos = []) →
  walk pos (Join a b) = walk (walk pos a) b.
Proof.
  intros Ha Hpos. unfold Join. rewrite bool_decide_eq_false_2 by done.
  rewrite walk_Clean; [apply walk_app_sep | by destruct a |].
  by rewrite rooted_app.
Qed.

Lemma start_rooted cwd p : rooted p = true → start cwd p = [].
Proof. unfold start. by intros ->. Qed.

Lemma resolve_start cwd p : resolve cwd p = reverse (walk (start cwd p) p).
Proof. done. Qed.

Lemma start_Join cwd a b : a ≠ "" → start cwd (Join a b) = start cwd a.
Proof. intros Ha. unfold start. by rewrite rooted_Join. Qed.

Lemma resolve_Join cwd a b :
  a ≠ "" → resolve cwd (Join a b) = reverse (walk (walk (start cwd a) a) b).
Proof.
  intros Ha. rewrite resolve_start, start_Join by done.
  rewrite walk_Join; [done | done | apply start_rooted].
Qed.

Lemma resolve_Join_plain cwd a b :
  a ≠ "" → plain b = true → resolve cwd (Join a b) = resolve cwd a ++ [b].
Proof.
  intros Ha Hb. rewrite resolve_Join, walk_plain by done.
  by rewrite reverse_cons.
Qed.

Lemma resolve_Join_empty cwd a : a ≠ "" → resolve cwd (Join a "") = resolve cwd a.
Proof. intros Ha. by rewrite resolve_Join. Qed.

Lemma Join_plain c r :
  plain c = true → plain r = true → Join c r = c +:+ "/" +:+ r.
Proof.
  intros Hc Hr. unfold Join.
  rewrite bool_decide_eq_false_2 by by apply named_nonempty, plain_named.
  rewrite Clean_render by by destruct c.
  unfold outOf. rewrite rooted_app by by apply named_nonempty, plain_named.
  rewrite plain_not_rooted by done.
  rewrite split_app_sep, !split_slashfree by by apply plain_slashfree.
  simpl. rewrite !cstep_named by by apply plain_named. done.
Qed.


Lemma render_suffix r c out s :
  render r (c :: out) +:+ s = render r ((c +:+ s) :: out).
Proof.
  unfold render. rewrite !reverse_cons. destruct r.
  - by rewrite app_assoc_str, join_snoc_suffix.
  - apply join_snoc_suffix.
Qed.

Lemma fold_cstep_snoc r l c out :
  named c = true →
  fold_left (cstep r) (l ++ [c]) out = c :: fold_left (cstep r) l out.
Proof. intros Hc. rewrite fold_left_app. simpl. by apply cstep_named. Qed.

(** A cleaned path whose last element names an entry, followed by a suffix
    without separator, leads to the same directory, to the entry with the
    longer name. *)
Lemma resolve_Join_suffix cwd a b l c s :
  a ≠ "" → split b = l ++ [c] → named c = true → slashfree s = true →
  resolve cwd (Join a b +:+ s)
  = reverse (fold_left rstep l (walk (start cwd a) a)) ++ [c +:+ s].
Proof.
  intros Ha Hb Hc Hs.
  assert (a +:+ "/" +:+ b ≠ "") as Hne by by destruct a.
  assert (rooted (a +:+ "/" +:+ b) = rooted a) as Hr by by apply rooted_app.
  unfold Join. rewrite bool_decide_eq_false_2 by done.
  rewrite Clean_render by done. unfold outOf.
  rewrite Hr, split_app_sep, Hb, app_assoc, fold_cstep_snoc by done.
  rewrite render_suffix.
  set (out := fold_left (cstep (rooted a)) (split a ++ l) []).
  assert (clean_out (rooted a) out) as Hout.
  { apply fold_cstep_clean_out; [| constructor].
    apply Forall_app. split; [apply split_elements |].
    pose proof (split_elements b) as Hsb. rewrite Hb in Hsb.
    by apply Forall_app in Hsb as [? _]. }
  assert (slashfree c = true) as Hcs.
  { pose proof (split_elements b) as Hsb. rewrite Hb in Hsb.
    apply Forall_app in Hsb as [_ Hsb]. by inversion Hsb. }
  assert (clean_out (rooted a) ((c +:+ s) :: out)) as Hout'.
  { constructor; [| done]. pose proof (named_app c s Hc) as Hn.
    rewrite slashfree_app, Hcs, Hs. repeat split; try done.
    - by intros E; rewrite E in Hn.
    - by intros E; rewrite E in Hn.
    - by intros _ E; rewrite E in Hn. }
  rewrite resolve_start. unfold start at 1.
  rewrite rooted_render by done. fold (start cwd a).
  rewrite walk_render by done.
  rewrite replay_cons, rstep_named by by apply named_app.
  rewrite reverse_cons. f_equal. f_equal.
  unfold out, walk. rewrite <-fold_left_app. symmetry.
  apply (fold_cstep_replay (rooted a) (split a ++ l) [] (start cwd a));
    [| constructor | apply start_rooted].
  apply Forall_app. split; [apply split_elements |].
  pose proof (split_elements b) as Hsb. rewrite Hb in Hsb.
  by apply Forall_app in Hsb as [? _].
Qed.

Lemma resolve_Join_plain_suffix cwd a b s :
  a ≠ "" → plain b = true → slashfree s = true →
  resolve cwd (Join a b +:+ s) = resolve cwd a ++ [b +:+ s].
Proof.
  intros Ha Hb Hs.
  rewrite (resolve_Join_suffix cwd a b [] b s); try done.
  - by apply split_slashfree, plain_slashfree.
  - by apply plain_named.
Qed.

(** ** The shape of the paths handed to the operating system *)

Lemma app_empty_r_str (s : string) : s +:+ "" = s.
Proof. induction s as [|x s IH]; [done |]. rewrite app_cons_str. by f_equal. Qed.

Lemma split_render r n out :
  clean_out r (n :: out) → ∃ X, split (render r (n :: out)) = X ++ [n].
Proof.
  intros Hout. pose proof (clean_out_slashfree _ _ Hout) as Hs.
  rewrite reverse_cons in Hs. unfold render. rewrite reverse_cons. destruct r.
  - exists ("" :: reverse out).
    change ("/" +:+ ?x) with ("" +:+ "/" +:+ x).
    rewrite split_app_sep, split_join; [done | by destruct (reverse out) | done].
  - exists (reverse out).
    rewrite split_join; [done | by destruct (reverse out) | done].
Qed.

Lemma resolve_last cwd p X n :
  split p = X ++ [n] → named n = true →
  resolve cwd p = reverse (fold_left rstep X (start cwd p)) ++ [n].
Proof.
  intros Hp Hn. unfold resolve, walk.
  by rewrite Hp, fold_left_app, <-reverse_cons; simpl; rewrite rstep_named.
Qed.

Lemma endsSlashDot_split p :
  endsSlashDot p = true → ∃ l, l ≠ [] ∧ split p = l ++ ["."].
Proof.
  induction p as [|x p IH]; [done |].
  simpl. intros [H | H]%orb_true_iff.
  - apply bool_decide_eq_true in H. simplify_eq. by exists [""].
  - destruct (IH H) as (l & Hl & E). rewrite E. case_bool_decide.
    + by exists ("" :: l).
    + destruct l as [|h t]; [done |]. by exists (String x h :: t).
Qed.

Lemma endsWithDot_last p X n :
  split p = X ++ [n] → n ≠ "." → endsWithDot p = false.
Proof.
  intros Hp Hn. unfold endsWithDot. apply orb_false_iff. split.
  - apply bool_decide_eq_false. intros ->.
    destruct X as [|? [|]]; simplify_eq/=.
  - destruct (endsSlashDot p) eqn:E; [| done].
    apply endsSlashDot_split in E as (l & _ & E). rewrite E in Hp.
    by apply app_inj_tail in Hp as [_ ?].
Qed.

Lemma named_not_dot n : named n = true → n ≠ ".".
Proof. by intros H ->. Qed.


Lemma split_named_nonempty p X n : split p = X ++ [n] → named n = true → p ≠ "".
Proof. intros Hp Hn ->. destruct X as [|? [|]]; simplify_eq/=. Qed.

(** [Join a b], followed by a suffix, written out. *)
Lemma Join_suffix_render a b l c s :
  a ≠ "" → split b = l ++ [c] → named c = true → slashfree s = true →
  ∃ out, clean_out (rooted a) ((c +:+ s) :: out)
         ∧ Join a b +:+ s = render (rooted a) ((c +:+ s) :: out).
Proof.
  intros Ha Hb Hc Hs.
  assert (a +:+ "/" +:+ b ≠ "") as Hne by by destruct a.
  assert (rooted (a +:+ "/" +:+ b) = rooted a) as Hr by by apply rooted_app.
  pose proof (split_elements b) as Hsb. rewrite Hb in Hsb.
  apply Forall_app in Hsb as [Hsl Hsc]. inversion Hsc as [|?? Hcs _]; subst.
  exists (fold_left (cstep (rooted a)) (split a ++ l) []). split.
  - constructor.
    + pose proof (named_app c s Hc) as Hn.
      rewrite slashfree_app, Hcs, Hs. repeat split; try done.
      * by intros E; rewrite E in Hn.
      * by intros E; rewrite E in Hn.
      * by intros _ E; rewrite E in Hn.
    + apply fold_cstep_clean_out; [| constructor].
      apply Forall_app. split; [apply split_elements | done].
  - unfold Join. rewrite bool_decide_eq_false_2 by done.
    rewrite Clean_render by done. unfold outOf.
    rewrite Hr, split_app_sep, Hb, app_assoc, fold_cstep_snoc by done.
    apply render_suffix.
Qed.

Lemma Join_suffix_split a b l c s :
  a ≠ "" → split b = l ++ [c] → named c = true → slashfree s = true →
  ∃ X, split (Join a b +:+ s) = X ++ [c +:+ s].
Proof.
  intros Ha Hb Hc Hs.
  destruct (Join_suffix_render a b l c s) as (out & Hout & ->); try done.
  by apply split_render.
Qed.


(** [Join a ""] when the last element of [a] names an entry. *)
Lemma Join_empty_split a :
  named (lastName a) = true → ∃ X, split (Join a "") = X ++ [lastName a].
Proof.
  intros Hn. unfold lastName in *.
  destruct (split_snoc a) as (l & n & Ha). rewrite Ha, last_snoc in *. simpl in *.
  assert (a ≠ "") as Hne by by eapply split_named_nonempty.
  unfold Join. rewrite bool_decide_eq_false_2 by done.
  rewrite Clean_render by by destruct a. unfold outOf.
  rewrite rooted_app, split_app_sep, Ha by done.
  rewrite fold_left_app. simpl. rewrite fold_cstep_snoc by done.
  change (cstep (rooted a) ?o "") with o.
  apply split_render. rewrite <-fold_cstep_snoc by done.
  apply fold_cstep_clean_out; [| constructor].
  rewrite <-Ha. apply split_elements.
Qed.

Lemma lastName_nonempty a : named (lastName a) = true → a ≠ "".
Proof. by intros H ->. Qed.

Lemma Clean_nonempty p : Clean p ≠ "".
Proof.
  unfold Clean. case_bool_decide; [done |].
  pose proof (outOf_clean p) as Hc. unfold outOf in Hc.
  unfold render. destruct (rooted p); [done |].
  destruct (fold_left _ _ _) as [|t out]; [done |].
  intros Hj. pose proof (clean_out_slashfree _ _ Hc) as Hs.
  pose proof (split_join (reverse (t :: out))) as Hsj.
  rewrite Hj, reverse_cons in Hsj. rewrite reverse_cons in Hs.
  specialize (Hsj ltac:(by destruct (reverse out)) Hs). simpl in Hsj.
  destruct (reverse out) as [|h [|]]; simplify_eq/=.
  by inversion Hc as [|?? (_ & ? & _) _].
Qed.

Lemma Join_nonempty a b : b ≠ "" → Join a b ≠ "".
Proof.
  intros Hb. unfold Join. repeat case_bool_decide; try done; apply Clean_nonempty.
Qed.

Lemma Join_nonempty_l a b : a ≠ "" → Join a b ≠ "".
Proof.
  intros Hb. unfold Join. repeat case_bool_decide; try done; apply Clean_nonempty.
Qed.

(** ** The file system *)

Lemma ancestors_snoc (k : path) n : ancestors (k ++ [n]) = ancestors k ++ [k].
Proof.
  unfold ancestors. rewrite length_app. simpl.
  replace (length k + 1) with (S (length k)) by lia.
  rewrite seq_S, fmap_app. simpl. rewrite take_app_length. f_equal.
  apply list_fmap_ext. intros i x Hx. apply lookup_seq in Hx as [-> Hlt].
  apply take_app_le. simpl. lia.
Qed.

Lemma blocked_snoc fs (k : path) n :
  blocked fs (k ++ [n]) = blocked fs k || isFile fs k.
Proof.
  unfold blocked. rewrite ancestors_snoc, existsb_app. simpl.
  by rewrite orb_false_r.
Qed.

Lemma isFile_Dir fs k : fs !! k = Some Dir → isFile fs k = false.
Proof. unfold isFile. by intros ->. Qed.

Lemma access_Ok fs k n : access fs k = Ok n → blocked fs k = false ∧ fs !! k = Some n.
Proof.
  unfold access. destruct (blocked fs k); [done |].
  destruct (fs !! k); naive_solver.
Qed.

Lemma access_Ok_2 fs k n : blocked fs k = false → fs !! k = Some n → access fs k = Ok n.
Proof. unfold access. by intros -> ->. Qed.

Lemma access_child fs (k : path) n :
  access fs k = Ok Dir → access fs (k ++ [n]) =
    match fs !! (k ++ [n]) with Some nd => Ok nd | None => Err ENOENT end.
Proof.
  intros [Hb Hk]%access_Ok. unfold access.
  by rewrite blocked_snoc, Hb, (isFile_Dir _ _ Hk).
Qed.

Lemma lookup_prune (k : path) (fs : gmap path node) (k' : path) :
  prune k fs !! k' = if decide (k `prefix_of` k') then None else fs !! k'.
Proof.
  unfold prune, under. case_decide as Hp.
  - apply map_lookup_filter_None_2. right. intros x _. simpl. tauto.
  - destruct (fs !! k') as [x|] eqn:E.
    + apply map_lookup_filter_Some_2; done.
    + apply map_lookup_filter_None_2. by left.
Qed.

Lemma mkdirAll_same_files fs k fs' : mkdirAll fs k = Ok fs' → same_files fs fs'.
Proof.
  unfold mkdirAll. destruct (existsb _ _) eqn:E; [done |]. intros [= <-].
  assert (Forall (λ x, isFile fs x = false) (ancestors k ++ [k])) as HL.
  { apply Forall_forall. intros x Hx. destruct (isFile fs x) eqn:Ex; [| done].
    assert (existsb (isFile fs) (ancestors k ++ [k]) = true) as Hc; [| congruence].
    apply existsb_exists. exists x. split; [by apply list_elem_of_In | done]. }
  clear E. induction HL as [|x L Hx HL IH]; [done |].
  intros k' data. simpl. destruct (decide (x = k')) as [-> | Hne].
  - rewrite lookup_insert_eq. unfold isFile in Hx.
    split; [done |]. intros E. by rewrite E in Hx.
  - rewrite lookup_insert_ne by done. apply IH.
Qed.

Lemma same_files_refl fs : same_files fs fs.
Proof. done. Qed.

(** ** What the operations of [os] and [ioutil] do to the state *)

Lemma getOrCreateMutext_spec c w :
  ∃ ms, getOrCreateMutext c w = (Ok tt, set_mutexes ms w).
Proof.
  unfold getOrCreateMutext. case_bool_decide; [| eauto].
  exists (mutexes w). by destruct w.
Qed.

Lemma update_inv f w r w' :
  update f w = (r, w') →
  (∃ fs, f w = Ok fs ∧ r = Ok tt ∧ w' = set_files fs w)
  ∨ (∃ e, f w = Err e ∧ r = Err e ∧ w' = w).
Proof. unfold update. destruct (f w); intros [= <- <-]; eauto. Qed.

Lemma os_MkdirAll_inv p w r w' :
  os_MkdirAll p w = (r, w') →
  cwd w' = cwd w ∧ mutexes w' = mutexes w ∧ same_files (files w) (files w').
Proof.
  unfold os_MkdirAll.
  intros [(fs & Hf & -> & ->) | (e & Hf & -> & ->)]%update_inv; [| done].
  split; [done | split; [done |]]. case_bool_decide; [done |].
  by eapply mkdirAll_same_files.
Qed.

Lemma ioutil_WriteFile_Ok p data w w' :
  ioutil_WriteFile p data w = (Ok tt, w') →
  w' = set_files (<[resolve (cwd w) p := File data]> (files w)) w.
Proof.
  unfold ioutil_WriteFile.
  intros [(fs & Hf & _ & ->) | (e & Hf & ? & _)]%update_inv; [| done].
  f_equal. repeat case_match; simplify_eq; done.
Qed.

Lemma ioutil_WriteFile_Err p data w e w' :
  ioutil_WriteFile p data w = (Err e, w') → w' = w.
Proof. unfold ioutil_WriteFile. by intros [(fs & Hf & ? & _) | (e' & Hf & _ & ->)]%update_inv. Qed.

Lemma os_Rename_Err old new w e w' : os_Rename old new w = (Err e, w') → w' = w.
Proof. unfold os_Rename. by intros [(fs & Hf & ? & _) | (e' & Hf & _ & ->)]%update_inv. Qed.

Lemma os_Rename_file old new w data w' :
  files w !! resolve (cwd w) old = Some (File data) →
  os_Rename old new w = (Ok tt, w') →
  w' = set_files (<[resolve (cwd w) new := File data]>
                    (delete (resolve (cwd w) old) (files w))) w.
Proof.
  unfold os_Rename.
  intros Hold [(fs & Hf & _ & ->) | (e & Hf & ? & _)]%update_inv; [| done].
  f_equal. rewrite Hold in Hf. repeat case_match; simplify_eq; done.
Qed.

Lemma named_json c : named (c +:+ ".json") = true.
Proof.
  destruct c as [|x [|y [|z t]]]; [done | ..];
    rewrite ?app_cons_str, ?app_nil_l_str; unfold named;
    repeat case_bool_decide; simplify_eq/=; done.
Qed.

Lemma final_temp_keys cwd d c r :
  c ≠ "" → r ≠ "" →
  ∃ K n, resolve cwd (finalPath d c r) = K ++ [n]
         ∧ resolve cwd (tempPath d c r) = K ++ [n +:+ ".tmp"].
Proof.
  intros Hc Hr. unfold tempPath, finalPath, collectionPath.
  destruct (split_snoc r) as (l & c0 & Hsplit).
  pose proof (split_app_suffix r ".json" l c0 eq_refl Hsplit) as Hb.
  pose proof (Join_nonempty (dir d) c Hc) as Ha.
  eexists _, _. split.
  - rewrite <-(app_empty_r_str (Join _ _)).
    rewrite (resolve_Join_suffix cwd _ _ l _ "" Ha Hb (named_json c0) eq_refl).
    by rewrite app_empty_r_str.
  - by rewrite (resolve_Join_suffix cwd _ _ l _ ".tmp" Ha Hb (named_json c0) eq_refl).
Qed.

Lemma append_tmp_ne (n : string) : n ≠ n +:+ ".tmp".
Proof.
  induction n as [|x n IH]; [done |]. rewrite app_cons_str. by intros [= ?].
Qed.

Section WriteFacts.
Context {V : Type} `{!Json V}.

(** The run of [Write] on names that pass the checks. *)
Lemma Write_run d c r (v : V) w :
  c ≠ "" → r ≠ "" →
  ∃ ms, Write d c r v w =
    match os_MkdirAll (collectionPath d c) (set_mutexes ms w) with
    | (Err e, w1) => (Err e, w1)
    | (Ok _, w1) =>
        match json_MarshalIndent v "" tab with
        | None => (Err MarshalError, w1)
        | Some b =>
            match ioutil_WriteFile (tempPath d c r) (b +:+ newline) w1 with
            | (Err e, w2) => (Err e, w2)
            | (Ok _, w2) => os_Rename (tempPath d c r) (finalPath d c r) w2
            end
        end
    end.
Proof.
  intros Hc Hr. unfold Write.
  rewrite !bool_decide_eq_false_2 by done.
  destruct (getOrCreateMutext_spec c w) as [ms Hms]. exists ms.
  unfold bind at 1. rewrite Hms.
  unfold bind at 1. fold (collectionPath d c).
  destruct (os_MkdirAll _ _) as [[[]|e] w1]; [| done].
  destruct (json_MarshalIndent v "" tab) as [b|]; [| done].
  unfold bind. fold (finalPath d c r). fold (tempPath d c r).
  by destruct (ioutil_WriteFile _ _ _) as [[[]|e] w2].
Qed.

Lemma Write_Ok_names d c r (v : V) w w' :
  (Write d c r v w = (Ok tt, w')) → c ≠ "" ∧ r ≠ "".
Proof.
  unfold Write. repeat case_bool_decide; try done.
Qed.

(** Every successful [Write] went through these states. *)
Lemma Write_trace d c r (v : V) w w' :
  (Write d c r v w = (Ok tt, w')) →
  ∃ b ms w1 w2,
    json_MarshalIndent v "" tab = Some b
    ∧ os_MkdirAll (collectionPath d c) (set_mutexes ms w) = (Ok tt, w1)
    ∧ ioutil_WriteFile (tempPath d c r) (b +:+ newline) w1 = (Ok tt, w2)
    ∧ os_Rename (tempPath d c r) (finalPath d c r) w2 = (Ok tt, w').
Proof.
  intros Hw. destruct (Write_Ok_names _ _ _ _ _ _ Hw) as [Hc Hr].
  destruct (Write_run d c r v w Hc Hr) as [ms Hrun]. rewrite Hrun in Hw.
  destruct (os_MkdirAll _ _) as [[[]|e] w1] eqn:E1; [| done].
  destruct (json_MarshalIndent v "" tab) as [b|]; [| done].
  destruct (ioutil_WriteFile _ _ _) as [[[]|e] w2] eqn:E2; [| done].
  by exists b, ms, w1, w2.
Qed.
End WriteFacts.

(** C3 (amended): [Write] and [Read] with an empty collection or resource
    name fail with a validation error and leave the whole state, the file
    system included, as it was. *)
Theorem empty_name_rejected {V : Type} `{!Json V} d c r (v : V) w :
  c = "" ∨ r = "" →
  (∃ e, validation_error e ∧ Write d c r v w = (Err e, w))
  ∧ (∃ e, validation_error e ∧ Read (V := V) d c r w = (Err e, w)).
Proof.
  intros Hempty. unfold Write, Read, validation_error, raise.
  destruct (decide (c = "")) as [-> | Hc].
  - split; [exists MissingCollection | exists MissingCollection]; auto.
  - destruct Hempty as [? | ->]; [done |].
    rewrite !bool_decide_eq_false_2 by done.
    split; [exists MissingResourceSave | exists MissingResourceRead]; auto.
Qed.



(** C7: when [os.Stat] finds nothing at the target path nor at the target
    path with [.json], [Delete] returns its not-found error and the file
    system is as it was. *)
Theorem Delete_missing d c r w :
  ¬ exists_at w (targetPath d c r) →
  ¬ exists_at w (targetPath d c r +:+ ".json") →
  ∃ e w', Delete d c r w = (Err e, w') ∧ not_found_error e
          ∧ files w' = files w ∧ cwd w' = cwd w.
Proof.
  intros Hbare Hjson. unfold Delete.
  destruct (getOrCreateMutext_spec c w) as [ms Hms].
  unfold bind. rewrite Hms. fold (targetPath d c r).
  assert (∀ p, (os_Stat p (set_mutexes ms w)).1 = (os_Stat p w).1) as Hstat by done.
  assert (∀ p, (os_Stat p (set_mutexes ms w)).2 = set_mutexes ms w) as Hst2 by done.
  assert (∃ e, stat (targetPath d c r) (set_mutexes ms w)
               = (Err e, set_mutexes ms w)) as [e ->].
  { unfold stat.
    destruct (os_Stat (targetPath d c r) (set_mutexes ms w)) as [[fi|e] w1] eqn:E1.
    - destruct Hbare. exists fi. by rewrite <-Hstat, E1.
    - pose proof (Hst2 (targetPath d c r)) as E. rewrite E1 in E. simpl in E. subst w1.
      destruct (IsNotExist e); [| eauto].
      destruct (os_Stat (targetPath d c r +:+ ".json") (set_mutexes ms w))
        as [[fi|e'] w2] eqn:E2.
      + destruct Hjson. exists fi. by rewrite <-Hstat, E2.
      + pose proof (Hst2 (targetPath d c r +:+ ".json")) as E.
        rewrite E2 in E. simpl in E. subst w2. eauto. }
  eexists _, _. split; [done |]. split; [right; eauto | done].
Qed.

(** ** Directory listings *)

Lemma parent_snoc (k : path) n : parent (k ++ [n]) = k.
Proof.
  unfold parent. rewrite length_app. simpl.
  replace (length k + 1 - 1) with (length k) by lia. apply take_app_length.
Qed.

Lemma entry_name_Some (k k' : path) n : entry_name k k' = Some n ↔ k' = k ++ [n].
Proof.
  unfold entry_name. split.
  - case_bool_decide as H; [| done]. destruct H as [Hp Hl]. intros Hlast.
    destruct k' as [|x k'] using rev_ind; [done |].
    rewrite last_snoc in Hlast. rewrite parent_snoc in Hp. by simplify_eq.
  - intros ->. rewrite bool_decide_eq_true_2, last_snoc; [done |].
    rewrite parent_snoc, length_app. simpl. split; [done | lia].
Qed.

Lemma entries_spec (fs : gmap path node) (k : path) n :
  n ∈ entries fs k ↔ is_Some (fs !! (k ++ [n])).
Proof.
  unfold entries. rewrite merge_sort_Permutation, list_elem_of_omap. split.
  - intros ([k' nd] & Hin & Hn). apply elem_of_map_to_list in Hin.
    simpl in Hn. apply entry_name_Some in Hn as ->. eauto.
  - intros [nd Hnd]. exists (k ++ [n], nd). split.
    + by apply elem_of_map_to_list.
    + by apply entry_name_Some.
Qed.

Lemma entries_NoDup (fs : gmap path node) (k : path) : NoDup (entries fs k).
Proof.
  unfold entries. rewrite merge_sort_Permutation.
  pose proof (NoDup_fst_map_to_list fs) as Hnd.
  induction (map_to_list fs) as [|[k' nd] l IH]; [constructor |].
  simpl in *. apply NoDup_cons in Hnd as [Hk' Hnd].
  destruct (entry_name k k') as [n|] eqn:E; [| by apply IH].
  apply NoDup_cons. split; [| by apply IH].
  intros ([k'' nd'] & Hin & Hn)%list_elem_of_omap. simpl in Hn.
  apply entry_name_Some in E as ->. apply entry_name_Some in Hn as ->.
  apply Hk'. apply list_elem_of_fmap. by exists (k ++ [n], nd').
Qed.

(** ** Reading *)

Lemma os_Stat_run p w :
  os_Stat p w =
  (if bool_decide (p = "") then Err ENOENT
   else match access (files w) (resolve (cwd w) p) with
        | Ok n => Ok (info (base (resolve (cwd w) p)) n)
        | Err e => Err e
        end, w).
Proof. done. Qed.

Lemma os_Stat_state p w : (os_Stat p w).2 = w.
Proof. done. Qed.

Lemma os_Stat_pair p w : os_Stat p w = ((os_Stat p w).1, w).
Proof. done. Qed.

Lemma stat_state p w : (stat p w).2 = w.
Proof.
  unfold stat. rewrite (os_Stat_pair p w).
  destruct (os_Stat p w).1 as [fi|e]; [done |].
  destruct (IsNotExist e); [apply os_Stat_state | done].
Qed.

Lemma stat_found p w n :
  p ≠ "" → access (files w) (resolve (cwd w) p) = Ok n →
  stat p w = (Ok (info (base (resolve (cwd w) p)) n), w).
Proof.
  intros Hp Ha. unfold stat. rewrite os_Stat_run.
  by rewrite bool_decide_eq_false_2, Ha.
Qed.

Lemma stat_absent p w :
  absent_at w p → stat p w = os_Stat (p +:+ ".json") w.
Proof.
  unfold absent_at, stat. intros H. by rewrite (os_Stat_pair p w), H.
Qed.

Lemma Name_info n nd : Name (info n nd) = n.
Proof. by destruct nd. Qed.

Lemma ioutil_ReadFile_file p w data :
  p ≠ "" → access (files w) (resolve (cwd w) p) = Ok (File data) →
  ioutil_ReadFile p w = (Ok data, w).
Proof.
  intros Hp Ha. unfold ioutil_ReadFile, query.
  by rewrite bool_decide_eq_false_2, Ha.
Qed.

Lemma readEach_files dirp w names acc :
  dirp ≠ "" →
  access (files w) (resolve (cwd w) dirp) = Ok Dir →
  Forall (λ n, plain n = true
               ∧ isFile (files w) (resolve (cwd w) dirp ++ [n]) = true) names →
  readEach dirp
    ((λ n, info n (default Dir (files w !! (resolve (cwd w) dirp ++ [n]))))
       <$> names) acc w
  = (Ok (acc ++ ((λ n, content (files w) (resolve (cwd w) dirp ++ [n]))
                   <$> names)), w).
Proof.
  intros Hd Hdir Hnames. revert acc.
  induction Hnames as [|n names [Hn Hf] _ IH]; intros acc.
  - simpl. by rewrite app_nil_r.
  - simpl. unfold bind. rewrite Name_info.
    unfold isFile in Hf. unfold content at 1.
    destruct (files w !! (resolve (cwd w) dirp ++ [n])) as [[data|]|] eqn:E;
      try done.
    rewrite (ioutil_ReadFile_file _ _ data).
    + rewrite IH. by rewrite <-app_assoc.
    + by apply Join_nonempty_l.
    + rewrite resolve_Join_plain by done.
      by rewrite (access_child _ _ _ Hdir), E.
Qed.

Lemma ReadAll_run d c w :
  c ≠ "" →
  ReadAll d c w =
  match stat (collectionPath d c) w with
  | (Ok _, _) =>
      readEach (collectionPath d c)
        (match ioutil_ReadDir (collectionPath d c) w with
         | (Ok files, _) => files
         | (Err _, _) => []
         end) [] w
  | (Err e, _) => (Err e, w)
  end.
Proof.
  intros Hc. unfold ReadAll. rewrite bool_decide_eq_false_2 by done.
  unfold bind. fold (collectionPath d c).
  pose proof (stat_state (collectionPath d c) w) as Hs.
  destruct (stat (collectionPath d c) w) as [[fi|e] w1]; simpl in Hs; by subst.
Qed.

Lemma ioutil_ReadDir_dir p w :
  p ≠ "" → access (files w) (resolve (cwd w) p) = Ok Dir →
  ioutil_ReadDir p w =
  (Ok ((λ n, info n (default Dir (files w !! (resolve (cwd w) p ++ [n]))))
         <$> entries (files w) (resolve (cwd w) p)), w).
Proof.
  intros Hp Ha. unfold ioutil_ReadDir, query.
  by rewrite bool_decide_eq_false_2, Ha.
Qed.

Lemma ioutil_ReadDir_pair p w : ioutil_ReadDir p w = ((ioutil_ReadDir p w).1, w).
Proof. done. Qed.


(** C10: [ReadAll] drops the error of [ioutil.ReadDir]: whenever the
    existence check passes and the listing fails, the result is the empty
    sequence and no error; this is what happens when the collection
    directory does not exist and the root holds a regular file named as the
    collection with [.json]. *)
Theorem ReadAll_listing_error_ignored d c w :
  c ≠ "" →
  (∀ fi e, (stat (collectionPath d c) w).1 = Ok fi →
           (ioutil_ReadDir (collectionPath d c) w).1 = Err e →
           ReadAll d c w = (Ok [], w))
  ∧ (∀ R data,
       plain c = true → dir d ≠ "" → R = resolve (cwd w) (dir d) →
       access (files w) R = Ok Dir →
       files w !! (R ++ [c]) = None →
       files w !! (R ++ [c +:+ ".json"]) = Some (File data) →
       ReadAll d c w = (Ok [], w)).
Proof.
  intros Hc.
  assert (∀ fi e, (stat (collectionPath d c) w).1 = Ok fi →
           (ioutil_ReadDir (collectionPath d c) w).1 = Err e →
           ReadAll d c w = (Ok [], w)) as Hgen.
  { intros fi e Hstat Hdir. rewrite ReadAll_run by done.
    pose proof (stat_state (collectionPath d c) w) as Hs.
    destruct (stat (collectionPath d c) w) as [[fi'|e'] w1];
      simpl in Hs, Hstat; [| done].
    by rewrite ioutil_ReadDir_pair, Hdir. }
  split; [done |].
  intros R data Hplain Hroot -> HR Hbare Hjson.
  assert (resolve (cwd w) (collectionPath d c) = resolve (cwd w) (dir d) ++ [c]) as HK
    by by apply resolve_Join_plain.
  assert (absent_at w (collectionPath d c)) as Habs.
  { unfold absent_at. rewrite os_Stat_run. simpl.
    rewrite bool_decide_eq_false_2 by by apply Join_nonempty.
    by rewrite HK, (access_child _ _ _ HR), Hbare. }
  apply (Hgen (info (c +:+ ".json") (File data)) ENOENT).
  - rewrite (stat_absent _ _ Habs), os_Stat_run. simpl.
    rewrite bool_decide_eq_false_2 by (unfold collectionPath; by destruct (Join (dir d) c)).
    unfold collectionPath. rewrite resolve_Join_plain_suffix by done.
    rewrite (access_child _ _ _ HR), Hjson. unfold base. by rewrite last_snoc.
  - unfold ioutil_ReadDir, query. simpl.
    rewrite bool_decide_eq_false_2 by by apply Join_nonempty.
    by rewrite HK, (access_child _ _ _ HR), Hbare.
Qed.

(** ** Well-formed file systems *)

Lemma wf_fs_parent fs (k : path) n :
  wf_fs fs = true → is_Some (fs !! (k ++ [n])) → fs !! k = Some Dir.
Proof.
  unfold wf_fs. rewrite forallb_forall. intros Hwf [nd Hnd].
  assert (In (k ++ [n], nd) (map_to_list fs)) as Hin
    by by apply list_elem_of_In, elem_of_map_to_list.
  apply Hwf in Hin. simpl in Hin.
  rewrite parent_snoc, bool_decide_eq_false_2 in Hin by by destruct k.
  simpl in Hin. unfold isDir in Hin. by destruct (fs !! k) as [[|]|].
Qed.

Lemma wf_fs_above fs (k rest : path) :
  wf_fs fs = true → rest ≠ [] → is_Some (fs !! (k ++ rest)) → fs !! k = Some Dir.
Proof.
  intros Hwf. induction rest as [|n rest IH] using rev_ind; [done |].
  intros _ Hsome. rewrite app_assoc in Hsome.
  apply wf_fs_parent in Hsome; [| done].
  destruct rest as [|x rest]; [by rewrite app_nil_r in Hsome |].
  apply IH; [done | by rewrite Hsome].
Qed.

Lemma wf_fs_not_blocked fs k :
  wf_fs fs = true → is_Some (fs !! k) → blocked fs k = false.
Proof.
  intros Hwf Hk. unfold blocked.
  destruct (existsb _ _) eqn:E; [| done].
  apply existsb_exists in E as (a & Ha & Hfile).
  apply list_elem_of_In, list_elem_of_fmap in Ha as (i & -> & Hi).
  apply elem_of_seq in Hi as [_ Hi]. simpl in Hi.
  assert (fs !! take i k = Some Dir) as Hd.
  { apply (wf_fs_above fs (take i k) (drop i k)); [done | | by rewrite take_drop].
    intros Hnil. apply (f_equal length) in Hnil.
    rewrite length_drop in Hnil. simpl in Hnil. lia. }
  by rewrite (isFile_Dir _ _ Hd) in Hfile.
Qed.

Lemma wf_fs_access fs k nd :
  wf_fs fs = true → fs !! k = Some nd → access fs k = Ok nd.
Proof.
  intros Hwf Hk. apply access_Ok_2; [| done]. by apply wf_fs_not_blocked.
Qed.

(** In a well-formed file system nothing lies below a regular file. *)
Lemma prune_file fs k data :
  wf_fs fs = true → fs !! k = Some (File data) → prune k fs = delete k fs.
Proof.
  intros Hwf Hk. apply map_eq. intros k'. rewrite lookup_prune.
  destruct (decide (k = k')) as [<- | Hne].
  - rewrite decide_True by done. by rewrite lookup_delete_eq.
  - rewrite lookup_delete_ne by done. case_decide as Hp; [| done].
    destruct Hp as [rest ->]. destruct (fs !! (k ++ rest)) eqn:E; [| done].
    assert (fs !! k = Some Dir) as Hd; [| congruence].
    apply (wf_fs_above fs k rest); [done | | by rewrite E].
    intros ->. by rewrite app_nil_r in Hne.
Qed.

(** ** Removing *)

Lemma os_RemoveAll_named p w X n nd :
  split p = X ++ [n] → named n = true →
  access (files w) (resolve (cwd w) p) = Ok nd →
  os_RemoveAll p w = (Ok tt, set_files (prune (resolve (cwd w) p) (files w)) w).
Proof.
  intros Hp Hn [Hb Hk]%access_Ok. unfold os_RemoveAll.
  rewrite bool_decide_eq_false_2 by by eapply split_named_nonempty.
  rewrite (endsWithDot_last p X n) by (done || by apply named_not_dot).
  rewrite Hb, Hk.
  rewrite bool_decide_eq_false_2.
  2: { rewrite (resolve_last _ _ X n) by done. intros E.
       by apply app_eq_nil in E as [_ ?]. }
  rewrite bool_decide_eq_false_2; [done |].
  rewrite Hp, last_snoc. intros [= ->]. done.
Qed.

Lemma Delete_run d c r w :
  ∃ ms, Delete d c r w =
    match stat (targetPath d c r) (set_mutexes ms w) with
    | (Err _, w') => (Err (UnableToFind (Join c r)), w')
    | (Ok fi, w') =>
        if IsDir fi then os_RemoveAll (targetPath d c r) w'
        else if IsRegular fi then os_RemoveAll (targetPath d c r +:+ ".json") w'
        else (Ok tt, w')
    end.
Proof.
  destruct (getOrCreateMutext_spec c w) as [ms Hms]. exists ms.
  unfold Delete, bind, targetPath. by rewrite Hms.
Qed.

Lemma targetPath_key cwd d c r :
  dir d ≠ "" → plain c = true → plain r = true →
  resolve cwd (targetPath d c r) = resolve cwd (dir d) ++ [c; r].
Proof.
  intros Hd Hc Hr. unfold targetPath.
  rewrite (Join_plain c r), resolve_Join by done.
  rewrite walk_app_sep, !walk_plain by done.
  by rewrite !reverse_cons, <-app_assoc.
Qed.

Lemma targetPath_json_key cwd d c r :
  dir d ≠ "" → plain c = true → plain r = true →
  resolve cwd (targetPath d c r +:+ ".json")
  = resolve cwd (dir d) ++ [c; r +:+ ".json"].
Proof.
  intros Hd Hc Hr. unfold targetPath. rewrite (Join_plain c r) by done.
  rewrite (resolve_Join_suffix cwd _ _ [c] r ".json"); try done.
  - simpl. rewrite rstep_named by by apply plain_named.
    by rewrite reverse_cons, <-app_assoc.
  - rewrite split_app_sep, !split_slashfree by by apply plain_slashfree. done.
  - by apply plain_named.
Qed.

Lemma targetPath_json_split d c r :
  dir d ≠ "" → plain c = true → plain r = true →
  ∃ X, split (targetPath d c r +:+ ".json") = X ++ [r +:+ ".json"].
Proof.
  intros Hd Hc Hr. unfold targetPath. rewrite (Join_plain c r) by done.
  apply (Join_suffix_split _ _ [c]); try done.
  - rewrite split_app_sep, !split_slashfree by by apply plain_slashfree. done.
  - by apply plain_named.
Qed.

Lemma finalPath_key cwd d c r :
  dir d ≠ "" → plain c = true → plain r = true →
  resolve cwd (finalPath d c r) = resolve cwd (dir d) ++ [c; r +:+ ".json"].
Proof.
  intros Hd Hc Hr. unfold finalPath, collectionPath.
  assert (plain (r +:+ ".json") = true) as Hrj.
  { unfold plain. rewrite named_json, slashfree_app.
    by rewrite (plain_slashfree _ Hr). }
  rewrite resolve_Join_plain by (done || by apply Join_nonempty_l).
  rewrite resolve_Join_plain by done. by rewrite <-app_assoc.
Qed.

Lemma stat_file_or_absent p w data :
  p ≠ "" →
  blocked (files w) (resolve (cwd w) p) = false →
  files w !! resolve (cwd w) p ≠ Some Dir →
  access (files w) (resolve (cwd w) (p +:+ ".json")) = Ok (File data) →
  ∃ fi, stat p w = (Ok fi, w) ∧ IsDir fi = false ∧ IsRegular fi = true.
Proof.
  intros Hp Hb Hnd Hjson. unfold stat. rewrite (os_Stat_run p).
  rewrite bool_decide_eq_false_2 by done. unfold access at 1. rewrite Hb.
  destruct (files w !! resolve (cwd w) p) as [[x|]|] eqn:E; [| done |].
  - eexists. split; [done |]. done.
  - simpl. rewrite os_Stat_run, Hjson.
    rewrite bool_decide_eq_false_2 by by destruct p.
    eexists. split; [done |]. done.
Qed.


(** C9 (amended): a root path whose last element names an entry (not ["."],
    not [".."], not ["/"]) and that is a directory: [Delete] with both
    names empty takes the root directory as its target and removes it with
    everything below it, without error. *)
Theorem Delete_root d w :
  named (lastName (dir d)) = true →
  access (files w) (resolve (cwd w) (dir d)) = Ok Dir →
  resolve (cwd w) (targetPath d "" "") = resolve (cwd w) (dir d)
  ∧ ∃ w', Delete d "" "" w = (Ok tt, w')
          ∧ ∀ k, files w' !! k
                 = if decide (resolve (cwd w) (dir d) `prefix_of` k) then None
                   else files w !! k.
Proof.
  intros Hn Ha. pose proof (lastName_nonempty _ Hn) as Hd.
  assert (targetPath d "" "" = Join (dir d) "") as Ht by done.
  assert (resolve (cwd w) (Join (dir d) "") = resolve (cwd w) (dir d)) as Hk
    by by apply resolve_Join_empty.
  split; [by rewrite Ht |].
  destruct (Delete_run d "" "" w) as [ms ->]. rewrite Ht.
  assert (Join (dir d) "" ≠ "") as Hne by by apply Join_nonempty_l.
  rewrite (stat_found _ _ Dir); simpl; [| done | by rewrite Hk].
  destruct (Join_empty_split (dir d) Hn) as [X HX].
  rewrite (os_RemoveAll_named _ _ X (lastName (dir d)) Dir); simpl;
    [| done | done | by rewrite Hk].
  eexists. split; [done |]. intros k. simpl. rewrite Hk. apply lookup_prune.
Qed.

(** ** The driver keeps the file system well-formed *)

Lemma wf_fs_spec fs :
  wf_fs fs = true ↔ ∀ k nd, fs !! k = Some nd → k = [] ∨ fs !! parent k = Some Dir.
Proof.
  unfold wf_fs. rewrite forallb_forall. split.
  - intros Hwf k nd Hk.
    assert (In (k, nd) (map_to_list fs)) as Hin
      by by apply list_elem_of_In, elem_of_map_to_list.
    apply Hwf in Hin. simpl in Hin. apply orb_true_iff in Hin as [H | H].
    + left. by apply bool_decide_eq_true in H.
    + right. unfold isDir in H. by destruct (fs !! parent k) as [[|]|].
  - intros Hwf [k nd] Hin. simpl.
    apply list_elem_of_In, elem_of_map_to_list in Hin.
    destruct (Hwf k nd Hin) as [-> | H]; [done |].
    unfold isDir. rewrite H. apply orb_true_r.
Qed.

Lemma parent_ancestors (k : path) :
  k ≠ [] → parent k ∈ ancestors k.
Proof.
  intros Hk. unfold ancestors, parent. apply list_elem_of_fmap.
  exists (length k - 1). split; [done |]. apply elem_of_seq.
  destruct k; [done |]. simpl. lia.
Qed.

Lemma ancestors_parent (k a : path) :
  a ∈ ancestors k → a = [] ∨ parent a ∈ ancestors k.
Proof.
  unfold ancestors. intros (i & -> & Hi)%list_elem_of_fmap.
  apply elem_of_seq in Hi as [_ Hi]. simpl in Hi.
  destruct i as [|i]; [by left |]. right.
  apply list_elem_of_fmap. exists i. split; [| apply elem_of_seq; simpl; lia].
  unfold parent. rewrite length_take, take_take.
  f_equal. lia.
Qed.

Lemma lookup_mkdirs (L : list path) (fs : gmap path node) (k : path) :
  foldr (λ k', insert k' Dir) fs L !! k
  = if decide (k ∈ L) then Some Dir else fs !! k.
Proof.
  induction L as [|x L IH].
  - by rewrite decide_False by apply not_elem_of_nil.
  - cbn [foldr]. destruct (decide (x = k)) as [-> | Hne].
    + rewrite lookup_insert_eq. by rewrite decide_True by left.
    + rewrite lookup_insert_ne, IH by done.
      destruct (decide (k ∈ L)).
      * by rewrite decide_True by by right.
      * rewrite decide_False; [done |]. by intros [? | ?]%elem_of_cons.
Qed.

Lemma mkdirAll_wf fs k fs' :
  wf_fs fs = true → mkdirAll fs k = Ok fs' → wf_fs fs' = true.
Proof.
  rewrite !wf_fs_spec. intros Hwf. unfold mkdirAll.
  destruct (existsb _ _); [done |]. intros [= <-] k' nd.
  rewrite !lookup_mkdirs.
  assert (∀ a, a ∈ ancestors k ++ [k] → a = [] ∨ parent a ∈ ancestors k ++ [k]) as HL.
  { intros a [Ha | Ha%list_elem_of_singleton]%elem_of_app.
    - destruct (ancestors_parent _ _ Ha) as [? | ?]; [by left | right].
      apply elem_of_app. by left.
    - subst a. destruct (decide (k = [])); [by left | right].
      apply elem_of_app. left. by apply parent_ancestors. }
  destruct (decide (k' ∈ ancestors k ++ [k])) as [Hin | Hnin].
  - intros _. destruct (HL k' Hin) as [? | Hp]; [by left | right].
    by rewrite decide_True.
  - intros Hk'. destruct (Hwf k' nd Hk') as [? | Hp]; [by left | right].
    by destruct (decide _).
Qed.

Lemma parent_ne (k : path) : k ≠ [] → parent k ≠ k.
Proof.
  intros Hk E. apply (f_equal length) in E. unfold parent in E.
  rewrite length_take in E. destruct k; [done |]. simpl in E. lia.
Qed.

Lemma parent_prefix (k : path) : parent k `prefix_of` k.
Proof. unfold parent. apply prefix_take. Qed.

Lemma insert_file_wf fs k data :
  wf_fs fs = true → fs !! k ≠ Some Dir →
  k = [] ∨ fs !! parent k = Some Dir →
  wf_fs (<[k := File data]> fs) = true.
Proof.
  rewrite !wf_fs_spec. intros Hwf Hnd Hparent k' nd.
  destruct (decide (k = k')) as [<- | Hne].
  - intros _. destruct Hparent as [? | Hp]; [by left | right].
    rewrite lookup_insert_ne; [done |].
    intros E. rewrite <-E in Hp. by rewrite Hp in Hnd.
  - rewrite lookup_insert_ne by done. intros Hk'.
    destruct (Hwf k' nd Hk') as [? | Hp]; [by left | right].
    rewrite lookup_insert_ne; [done |]. intros E. rewrite <-E in Hp. congruence.
Qed.

Lemma delete_file_wf fs k data :
  wf_fs fs = true → fs !! k = Some (File data) → wf_fs (delete k fs) = true.
Proof.
  rewrite !wf_fs_spec. intros Hwf Hk k' nd.
  destruct (decide (k = k')) as [<- | Hne]; [by rewrite lookup_delete_eq |].
  rewrite lookup_delete_ne by done. intros Hk'.
  destruct (Hwf k' nd Hk') as [? | Hp]; [by left | right].
  rewrite lookup_delete_ne; [done |]. intros E. rewrite <-E in Hp. congruence.
Qed.

Lemma prune_wf fs k : wf_fs fs = true → wf_fs (prune k fs) = true.
Proof.
  rewrite !wf_fs_spec. intros Hwf k' nd. rewrite !lookup_prune.
  case_decide as Hu; [done |]. intros Hk'.
  destruct (Hwf k' nd Hk') as [? | Hp]; [by left | right].
  rewrite decide_False; [done |]. intros Hu'. apply Hu.
  etrans; [exact Hu' | apply parent_prefix].
Qed.

Lemma lookup_empty_out (k : path) (fs : gmap path node) (k' : path) :
  empty_out k fs !! k'
  = if decide (k' = k ∨ ¬ k `prefix_of` k') then fs !! k' else None.
Proof.
  unfold empty_out, under. case_decide as Hp.
  - destruct (fs !! k') as [x|] eqn:E.
    + by apply map_lookup_filter_Some_2.
    + apply map_lookup_filter_None_2. by left.
  - apply map_lookup_filter_None_2. right. intros x _. done.
Qed.

Lemma empty_out_wf fs k : wf_fs fs = true → wf_fs (empty_out k fs) = true.
Proof.
  rewrite !wf_fs_spec. intros Hwf k' nd. rewrite !lookup_empty_out.
  case_decide as Hu; [| done]. intros Hk'.
  destruct (Hwf k' nd Hk') as [? | Hp]; [by left | right].
  rewrite decide_True; [done |].
  destruct (decide (parent k' = k)) as [? | Hne]; [by left | right].
  intros Hpre. destruct Hu as [-> | Hu].
  - apply Hne. apply (anti_symm prefix); [apply parent_prefix | done].
  - apply Hu. etrans; [exact Hpre | apply parent_prefix].
Qed.

Lemma os_MkdirAll_wf p w r w' :
  wf_fs (files w) = true → os_MkdirAll p w = (r, w') → wf_fs (files w') = true.
Proof.
  intros Hwf. unfold os_MkdirAll.
  intros [(fs & Hf & -> & ->) | (e & Hf & -> & ->)]%update_inv; [| done].
  case_bool_decide; [done |]. by eapply mkdirAll_wf.
Qed.

Lemma ioutil_WriteFile_wf p data w r w' :
  wf_fs (files w) = true → ioutil_WriteFile p data w = (r, w') →
  wf_fs (files w') = true.
Proof.
  intros Hwf. unfold ioutil_WriteFile.
  intros [(fs & Hf & -> & ->) | (e & Hf & -> & ->)]%update_inv; [| done].
  simpl. case_bool_decide; [done |].
  destruct (blocked _ _); [done |].
  destruct (files w !! resolve (cwd w) p) as [[old|]|] eqn:E; try done.
  - injection Hf as <-. apply insert_file_wf; [done | by rewrite E |].
    by eapply wf_fs_spec.
  - unfold isDir in Hf.
    destruct (files w !! parent (resolve (cwd w) p)) as [[|]|] eqn:Ep; try done.
    injection Hf as <-. apply insert_file_wf; [done | by rewrite E | by right].
Qed.

Lemma os_Rename_wf old new w data r w' :
  wf_fs (files w) = true →
  files w !! resolve (cwd w) old = Some (File data) →
  os_Rename old new w = (r, w') → wf_fs (files w') = true.
Proof.
  intros Hwf Hold. unfold os_Rename.
  intros [(fs & Hf & -> & ->) | (e & Hf & -> & ->)]%update_inv; [| done].
  simpl. destruct (_ || _); [done |]. destruct (_ || _); [done |].
  rewrite Hold in Hf.
  set (ko := resolve (cwd w) old) in *. set (kn := resolve (cwd w) new) in *.
  pose proof (delete_file_wf _ _ _ Hwf Hold) as Hdel.
  assert (∀ k, files w !! k = Some Dir → delete ko (files w) !! k = Some Dir) as Hkeep.
  { intros k Hk. rewrite lookup_delete_ne; [done |]. intros <-. congruence. }
  destruct (files w !! kn) as [[x|]|] eqn:E; try done.
  - injection Hf as <-. apply insert_file_wf; [done | |].
    + destruct (decide (ko = kn)) as [<- | ?];
        [by rewrite lookup_delete_eq | by rewrite lookup_delete_ne, E].
    + destruct (proj1 (wf_fs_spec _) Hwf kn _ E) as [? | Hp]; [by left | right].
      by apply Hkeep.
  - unfold isDir in Hf.
    destruct (files w !! parent kn) as [[|]|] eqn:Ep; try done.
    injection Hf as <-. apply insert_file_wf; [done | | right; by apply Hkeep].
    destruct (decide (ko = kn)) as [<- | ?];
      [by rewrite lookup_delete_eq | by rewrite lookup_delete_ne, E].
Qed.

Lemma os_RemoveAll_wf p w r w' :
  wf_fs (files w) = true → os_RemoveAll p w = (r, w') → wf_fs (files w') = true.
Proof.
  intros Hwf. unfold os_RemoveAll.
  repeat case_match; intros [= <- <-]; simpl;
    done || by (apply empty_out_wf || apply prune_wf).
Qed.

(** [Write] keeps the file system well-formed, whatever it returns. *)
Lemma Write_wf {V : Type} `{!Json V} d c r (v : V) w res w' :
  wf_fs (files w) = true → Write d c r v w = (res, w') → wf_fs (files w') = true.
Proof.
  intros Hwf.
  destruct (decide (c = "")) as [-> | Hc]; [by intros [= <- <-] |].
  destruct (decide (r = "")) as [-> | Hr].
  { unfold Write. rewrite bool_decide_eq_false_2 by done. by intros [= <- <-]. }
  destruct (Write_run d c r v w Hc Hr) as [ms ->].
  destruct (os_MkdirAll _ _) as [[[]|e] w1] eqn:E1;
    apply os_MkdirAll_wf in E1; try done; [| by intros [= <- <-]].
  destruct (json_MarshalIndent v "" tab) as [b|]; [| by intros [= <- <-]].
  destruct (ioutil_WriteFile _ _ _) as [[[]|e] w2] eqn:E2.
  - apply ioutil_WriteFile_wf in E2 as Hwf2; [| done].
    apply ioutil_WriteFile_Ok in E2. intros E3.
    eapply (os_Rename_wf _ _ w2 (b +:+ newline)); [done | | exact E3].
    rewrite E2. simpl. apply lookup_insert_eq.
  - apply ioutil_WriteFile_wf in E2; [| done]. by intros [= <- <-].
Qed.

(** [Delete] keeps the file system well-formed, whatever it returns. *)
Lemma Delete_wf d c r w res w' :
  wf_fs (files w) = true → Delete d c r w = (res, w') → wf_fs (files w') = true.
Proof.
  intros Hwf. destruct (Delete_run d c r w) as [ms ->].
  pose proof (stat_state (targetPath d c r) (set_mutexes ms w)) as Hs.
  destruct (stat _ _) as [[fi|e] w1]; simpl in Hs; subst w1;
    [| by intros [= <- <-]].
  destruct (IsDir fi); [by apply os_RemoveAll_wf |].
  destruct (IsRegular fi); [by apply os_RemoveAll_wf |]. by intros [= <- <-].
Qed.

(** X8: a [Write] that fails, at whatever step, leaves the regular file at
    the final path as it was: the previous version of the record stays. *)
Lemma Write_failure_keeps_final {V : Type} `{!Json V} d c r (v : V) w e w' :
  Write d c r v w = (Err e, w') →
  ∀ data,
    files w' !! resolve (cwd w) (finalPath d c r) = Some (File data)
    ↔ files w !! resolve (cwd w) (finalPath d c r) = Some (File data).
Proof.
  destruct (decide (c = "")) as [-> | Hc]; [by intros [= <- <-] |].
  destruct (decide (r = "")) as [-> | Hr].
  { unfold Write. rewrite bool_decide_eq_false_2 by done. by intros [= <- <-]. }
  destruct (Write_run d c r v w Hc Hr) as [ms ->].
  destruct (os_MkdirAll _ _) as [[[]|e1] w1] eqn:E1;
    apply os_MkdirAll_inv in E1 as (Hcwd & _ & Hsame); simpl in Hcwd, Hsame;
    [| intros [= <- <-]; intros data; apply Hsame].
  destruct (json_MarshalIndent v "" tab) as [b|];
    [| intros [= <- <-]; intros data; apply Hsame].
  destruct (ioutil_WriteFile _ _ _) as [[[]|e2] w2] eqn:E2.
  - apply ioutil_WriteFile_Ok in E2. intros E3. apply os_Rename_Err in E3 as ->.
    intros data. rewrite E2. simpl. rewrite Hcwd.
    destruct (final_temp_keys (cwd w) d c r Hc Hr) as (K & n & -> & ->).
    rewrite lookup_insert_ne; [apply Hsame |].
    intros E%app_inj_tail. destruct E as [_ E]. symmetry in E.
    by apply append_tmp_ne in E.
  - apply ioutil_WriteFile_Err in E2 as ->. intros [= <- <-] data. apply Hsame.
Qed.

(** ** Reading back *)

Lemma Write_effect {V : Type} `{!Json V} d c r (v : V) w w' :
  (Write d c r v w = (Ok tt, w')) →
  ∃ b w1,
    json_MarshalIndent v "" tab = Some b
    ∧ same_files (files w) (files w1)
    ∧ cwd w' = cwd w
    ∧ files w' =
        <[resolve (cwd w) (finalPath d c r) := File (b +:+ newline)]>
          (delete (resolve (cwd w) (tempPath d c r))
             (<[resolve (cwd w) (tempPath d c r) := File (b +:+ newline)]>
                (files w1))).
Proof.
  intros Hw.
  destruct (Write_trace _ _ _ _ _ _ Hw) as (b & ms & w1 & w2 & Hb & H1 & H2 & H3).
  apply os_MkdirAll_inv in H1 as (Hcwd1 & _ & Hsame). simpl in Hcwd1.
  apply ioutil_WriteFile_Ok in H2 as Hw2. rewrite Hcwd1 in Hw2.
  assert (cwd w2 = cwd w) as Hcwd2 by (by rewrite Hw2).
  assert (files w2 !! resolve (cwd w2) (tempPath d c r)
          = Some (File (b +:+ newline))) as Htmp.
  { rewrite Hw2. simpl. rewrite Hcwd1. apply lookup_insert_eq. }
  pose proof (os_Rename_file _ _ _ _ _ Htmp H3) as Hw'. rewrite Hcwd2 in Hw'.
  exists b, w1. split_and!; try done.
  - rewrite Hw'. simpl. by rewrite Hw2.
  - rewrite Hw'. simpl. by rewrite Hw2.
Qed.

Lemma Read_run {V : Type} `{!Json V} d c r w :
  c ≠ "" → r ≠ "" →
  Read (V := V) d c r w =
  match stat (collectionPath d c) w with
  | (Err e, _) => (Err e, w)
  | (Ok _, _) =>
      match ioutil_ReadFile (collectionPath d c +:+ ".json") w with
      | (Err e, _) => (Err e, w)
      | (Ok b, _) =>
          match json_Unmarshal b with
          | None => (Err UnmarshalError, w)
          | Some v => (Ok v, w)
          end
      end
  end.
Proof.
  intros Hc Hr. unfold Read. rewrite !bool_decide_eq_false_2 by done.
  unfold bind. fold (collectionPath d c).
  pose proof (stat_state (collectionPath d c) w) as Hs.
  destruct (stat (collectionPath d c) w) as [[fi|e] w1]; simpl in Hs; subst; [| done].
  unfold ioutil_ReadFile, query.
  destruct (if bool_decide _ then _ else _) as [b|e]; [| done].
  by destruct (json_Unmarshal b).
Qed.

(** The resource name, once it has passed the check, plays no part in
    [Read]. *)
Lemma Read_ignores_resource {V : Type} `{!Json V} d c r1 r2 w :
  r1 ≠ "" → r2 ≠ "" → Read (V := V) d c r1 w = Read (V := V) d c r2 w.
Proof.
  intros H1 H2. unfold Read. case_bool_decide; [done |].
  by rewrite !bool_decide_eq_false_2.
Qed.

Lemma ioutil_ReadFile_Ok p w data :
  (ioutil_ReadFile p w).1 = Ok data →
  isFile (files w) (resolve (cwd w) p) = true.
Proof.
  unfold ioutil_ReadFile, query, access, isFile. simpl.
  repeat case_match; simplify_eq; done.
Qed.

Lemma ioutil_ReadFile_pair p w : ioutil_ReadFile p w = ((ioutil_ReadFile p w).1, w).
Proof. done. Qed.

(** C1, what the code does instead: for plain names, a record that has
    just been written is not read back; [Read] fails, unless a regular
    file named as the collection with [.json] lies in the root. *)
Theorem written_record_not_read {V : Type} `{!Json V} d c r (v : V) w w' :
  plain c = true → plain r = true → dir d ≠ "" →
  isFile (files w) (resolve (cwd w) (dir d) ++ [c +:+ ".json"]) = false →
  (Write d c r v w = (Ok tt, w')) →
  ∃ e, Read (V := V) d c r w' = (Err e, w').
Proof.
  intros Hc Hr Hd Hstray Hw.
  pose proof (named_nonempty _ (plain_named _ Hc)) as Hc'.
  pose proof (named_nonempty _ (plain_named _ Hr)) as Hr'.
  destruct (Write_effect _ _ _ _ _ _ Hw) as (b & w1 & Hb & Hsame & Hcwd & Hfiles).
  destruct (final_temp_keys (cwd w) d c r Hc' Hr') as (K & n & HK & HT).
  pose proof (finalPath_key (cwd w) d c r Hd Hc Hr) as HF.
  rewrite HK in HF.
  replace (resolve (cwd w) (dir d) ++ [c; r +:+ ".json"])
    with ((resolve (cwd w) (dir d) ++ [c]) ++ [r +:+ ".json"]) in HF
    by by rewrite <-app_assoc.
  apply app_inj_tail in HF as [-> ->].
  set (R := resolve (cwd w) (dir d)) in *.
  assert (isFile (files w') (R ++ [c +:+ ".json"]) = false) as Hnot.
  { unfold isFile. rewrite Hfiles, HK, HT.
    assert (∀ x, R ++ [c +:+ ".json"] ≠ (R ++ [c]) ++ [x]) as Hne.
    { intros x E. apply (f_equal length) in E. rewrite !length_app in E.
      simpl in E. lia. }
    rewrite lookup_insert_ne, lookup_delete_ne, lookup_insert_ne by done.
    unfold isFile in Hstray.
    destruct (files w1 !! (R ++ [c +:+ ".json"])) as [[data|]|] eqn:E; try done.
    apply Hsame in E. by rewrite E in Hstray. }
  rewrite Read_run by done.
  destruct (stat (collectionPath d c) w') as [[fi|e] w2]; [| eauto].
  rewrite ioutil_ReadFile_pair.
  destruct (ioutil_ReadFile (collectionPath d c +:+ ".json") w').1 as [data|e] eqn:E;
    [| eauto].
  apply ioutil_ReadFile_Ok in E. unfold collectionPath in E.
  rewrite resolve_Join_plain_suffix, Hcwd in E by done.
  fold R in E. congruence.
Qed.

(** ** The driver on the example stores *)

Example Clean_dot : Clean "./" = ".".
Proof. reflexivity. Qed.

Example Clean_mixed : Clean "a//b/./c/../d/" = "a/b/d".
Proof. reflexivity. Qed.

Example Clean_above_root : Clean "/../a/../../b" = "/b".
Proof. reflexivity. Qed.

Example Clean_keeps_dotdot : Clean "../a/../../b" = "../../b".
Proof. reflexivity. Qed.

Example Join_skips_empty : Join "users" "" = "users" ∧ Join "" "" = "".
Proof. split; reflexivity. Qed.

Example resolve_relative :
  resolve ["home"; "u"] "../x/y.json" = ["home"; "x"; "y.json"].
Proof. reflexivity. Qed.

Example New_data :
  data_driver = mkDriver "data"
  ∧ files data_world = {[ [] := Dir; ["home"] := Dir; ["home"; "data"] := Dir ]}.
Proof. split; vm_compute; reflexivity. Qed.

Example Write_john :
  (Write data_driver "users" "john" (Text "John") data_world).1 = Ok tt
  ∧ files john_world !! ["home"; "data"; "users"; "john.json"]
    = Some (File (String quote ("John" +:+ String quote newline))).
Proof. split; vm_compute; reflexivity. Qed.

Example ReadAll_john :
  (ReadAll data_driver "users" john_world).1
  = Ok [String quote ("John" +:+ String quote newline)].
Proof. vm_compute. reflexivity. Qed.

(** C1, witness: the record written by [Write("users", "john", ...)] is
    not found by [Read("users", "john", ...)]. *)
Lemma written_record_not_read_witness :
  ∃ e, Read (V := sample) data_driver "users" "john" john_world
       = (Err e, john_world).
Proof.
  apply (written_record_not_read data_driver "users" "john" (Text "John")
           data_world john_world); reflexivity || discriminate.
Defined.

(** C2, on the code: [Read] looks at the collection path only.  In the
    store that holds the record [users/john.json] it fails with
    [ENOENT], although the record exists; in the store whose root holds a
    file [users.json] it returns the content of that file for the record
    [john], which does not exist. *)
Theorem Read_probes_collection_path :
  files john_world !! ["home"; "data"; "users"; "john.json"]
  = Some (File (String quote ("John" +:+ String quote newline)))
  ∧ (Read (V := sample) data_driver "users" "john" john_world).1 = Err ENOENT
  ∧ files stray_world !! ["home"; "data"; "users"; "john.json"] = None
  ∧ (Read (V := sample) data_driver "users" "john" stray_world).1
    = Ok (Text "Stray").
Proof. split_and!; vm_compute; reflexivity. Qed.

(** C3, counterexample: [Delete] with the empty resource name is not
    rejected; it succeeds and removes the collection. *)
Lemma Delete_empty_resource_removes :
  (Delete data_driver "users" "" john_world).1 = Ok tt
  ∧ files john_world !! ["home"; "data"; "users"] = Some Dir
  ∧ files (Delete data_driver "users" "" john_world).2
      !! ["home"; "data"; "users"] = None.
Proof. split_and!; vm_compute; reflexivity. Qed.

(** C3, witness. *)
Lemma empty_name_rejected_witness :
  ("" = "" ∨ "john" = "")
  ∧ (∃ e, validation_error e
          ∧ Write data_driver "" "john" (Text "John") data_world
            = (Err e, data_world))
  ∧ (∃ e, validation_error e
          ∧ Read (V := sample) data_driver "" "john" data_world
            = (Err e, data_world)).
Proof.
  split; [left; reflexivity |].
  apply (empty_name_rejected data_driver "" "john" (Text "John") data_world).
  left. reflexivity.
Defined.



(** A resource name need not be a file name: with [".."] the target of
    [Delete] is the root of the store, which is removed whole. *)
Example Delete_dotdot_removes_store :
  targetPath data_driver "users" ".." = "data"
  ∧ (Delete data_driver "users" ".." john_world).1 = Ok tt
  ∧ files (Delete data_driver "users" ".." john_world).2 !! ["home"; "data"]
    = None.
Proof. split_and!; vm_compute; reflexivity. Qed.



(** C7, witness: no record [ghost] in [users]. *)
Lemma Delete_missing_witness :
  ∃ e w', Delete data_driver "users" "ghost" john_world = (Err e, w')
          ∧ not_found_error e
          ∧ files w' = files john_world ∧ cwd w' = cwd john_world.
Proof.
  apply (Delete_missing data_driver "users" "ghost" john_world).
  - intros [fi Hfi]. vm_compute in Hfi. discriminate.
  - intros [fi Hfi]. vm_compute in Hfi. discriminate.
Defined.



(** C9, counterexample: the store of [main], whose root is ["."]:
    [Delete("", "")] fails with [EINVAL] and removes nothing. *)
Lemma Delete_root_dot_fails :
  dir here_driver = "."
  ∧ files here_world !! resolve (cwd here_world) (dir here_driver) = Some Dir
  ∧ (Delete here_driver "" "" here_world).1 = Err EINVAL
  ∧ files (Delete here_driver "" "" here_world).2 = files here_world.
Proof. split_and!; vm_compute; reflexivity. Qed.

(** C9, witness. *)
Lemma Delete_root_witness :
  resolve (cwd john_world) (targetPath data_driver "" "") = ["home"; "data"]
  ∧ ∃ w', Delete data_driver "" "" john_world = (Ok tt, w')
          ∧ ∀ k, files w' !! k
                 = if decide (["home"; "data"] `prefix_of` k) then None
                   else files john_world !! k.
Proof.
  apply (Delete_root data_driver john_world); reflexivity.
Defined.

(** C10, witness. *)
Lemma ReadAll_listing_error_ignored_witness :
  ReadAll data_driver "users" stray_world = (Ok [], stray_world).
Proof.
  destruct (ReadAll_listing_error_ignored data_driver "users" stray_world
              ltac:(discriminate)) as [_ H].
  apply (H ["home"; "data"] (String quote ("Stray" +:+ String quote newline)));
    reflexivity || discriminate.
Defined.

(** * Further properties of the driver *)

(** ** The state besides the files *)

Lemma set_files_id w : set_files (files w) w = w.
Proof. by destruct w. Qed.

Lemma set_mutexes_id w : set_mutexes (mutexes w) w = w.
Proof. by destruct w. Qed.

Lemma getOrCreateMutext_run c w :
  getOrCreateMutext c w = (Ok tt, set_mutexes ({[c]} ∪ mutexes w) w).
Proof.
  unfold getOrCreateMutext.
  destruct (decide (c ∈ mutexes w)) as [Hc | Hc];
    [rewrite bool_decide_eq_true_2 by done
    | by rewrite bool_decide_eq_false_2 by done].
  assert ({[c]} ∪ mutexes w = mutexes w) as ->
    by (by apply subseteq_union_1_L, singleton_subseteq_l).
  by rewrite set_mutexes_id.
Qed.

Lemma update_frame f w r w' :
  update f w = (r, w') → mutexes w' = mutexes w ∧ cwd w' = cwd w.
Proof.
  by intros [(fs & _ & _ & ->) | (e & _ & _ & ->)]%update_inv.
Qed.

Lemma os_RemoveAll_frame p w r w' :
  os_RemoveAll p w = (r, w') → mutexes w' = mutexes w ∧ cwd w' = cwd w.
Proof.
  unfold os_RemoveAll. repeat case_match; by intros [= <- <-].
Qed.

Lemma os_RemoveAll_subseteq p w r w' :
  os_RemoveAll p w = (r, w') → files w' ⊆ files w.
Proof.
  unfold os_RemoveAll.
  repeat case_match; intros [= <- <-]; simpl;
    done || apply map_filter_subseteq.
Qed.

Section Runs.
Context {V : Type} `{!Json V}.

(** The run of [Write], with the registry it leaves. *)
Lemma Write_steps d c r (v : V) w :
  c ≠ "" → r ≠ "" →
  (Write d c r v w) =
    match os_MkdirAll (collectionPath d c)
            (set_mutexes ({[c]} ∪ mutexes w) w) with
    | (Err e, w1) => (Err e, w1)
    | (Ok _, w1) =>
        match json_MarshalIndent v "" tab with
        | None => (Err MarshalError, w1)
        | Some b =>
            match ioutil_WriteFile (tempPath d c r) (b +:+ newline) w1 with
            | (Err e, w2) => (Err e, w2)
            | (Ok _, w2) => os_Rename (tempPath d c r) (finalPath d c r) w2
            end
        end
    end.
Proof.
  intros Hc Hr. unfold Write.
  rewrite !bool_decide_eq_false_2 by done.
  unfold bind at 1. rewrite getOrCreateMutext_run.
  unfold bind at 1. fold (collectionPath d c).
  destruct (os_MkdirAll _ _) as [[[]|e] w1]; [| done].
  destruct (json_MarshalIndent v "" tab) as [b|]; [| done].
  unfold bind. fold (finalPath d c r). fold (tempPath d c r).
  by destruct (ioutil_WriteFile _ _ _) as [[[]|e] w2].
Qed.
End Runs.

Lemma Delete_steps d c r w :
  Delete d c r w =
    match stat (targetPath d c r) (set_mutexes ({[c]} ∪ mutexes w) w) with
    | (Err _, w') => (Err (UnableToFind (Join c r)), w')
    | (Ok fi, w') =>
        if IsDir fi then os_RemoveAll (targetPath d c r) w'
        else if IsRegular fi then os_RemoveAll (targetPath d c r +:+ ".json") w'
        else (Ok tt, w')
    end.
Proof.
  unfold Delete, bind, targetPath. by rewrite getOrCreateMutext_run.
Qed.

Lemma readEach_state dirp fis acc w : (readEach dirp fis acc w).2 = w.
Proof.
  revert acc. induction fis as [|fi fis IH]; intros acc; [done |].
  simpl. unfold bind. rewrite ioutil_ReadFile_pair.
  destruct (ioutil_ReadFile _ w).1; [apply IH | done].
Qed.

Lemma Read_state {V : Type} `{!Json V} d c r w : (Read (V := V) d c r w).2 = w.
Proof.
  destruct (decide (c = "")) as [-> | Hc]; [done |].
  destruct (decide (r = "")) as [-> | Hr].
  { unfold Read. by rewrite bool_decide_eq_false_2. }
  rewrite Read_run by done.
  destruct (stat _ _) as [[fi|e] w1]; [| done].
  destruct (ioutil_ReadFile _ _) as [[b|e] w2]; [| done].
  by destruct (json_Unmarshal b).
Qed.

Lemma ReadAll_state d c w : (ReadAll d c w).2 = w.
Proof.
  destruct (decide (c = "")) as [-> | Hc]; [done |].
  rewrite ReadAll_run by done.
  destruct (stat _ _) as [[fi|e] w1]; [| done]. apply readEach_state.
Qed.

(** X5: [Read] and [ReadAll] only look: whatever they return, the lock
    registry, the working directory and the file system are as before. *)
Theorem reads_change_nothing {V : Type} `{!Json V} d c r w :
  (Read (V := V) d c r w).2 = w ∧ (ReadAll d c w).2 = w.
Proof. split; [apply Read_state | apply ReadAll_state]. Qed.

(** X4: the lock registry only grows, by the collection of the call:
    [Delete] enters its collection always, found or not; [Write] enters it
    once both names have passed the checks, whatever happens next, and
    leaves the registry alone otherwise. *)
Theorem registry_grows {V : Type} `{!Json V} d c r (v : V) w :
  mutexes (Delete d c r w).2 = {[c]} ∪ mutexes w
  ∧ (c ≠ "" → r ≠ "" → mutexes (Write d c r v w).2 = {[c]} ∪ mutexes w)
  ∧ (c = "" ∨ r = "" → mutexes (Write d c r v w).2 = mutexes w).
Proof.
  split_and!.
  - rewrite Delete_steps.
    pose proof (stat_state (targetPath d c r)
                  (set_mutexes ({[c]} ∪ mutexes w) w)) as Hs.
    destruct (stat _ _) as [[fi|e] w1]; simpl in Hs; subst w1; [| done].
    destruct (IsDir fi).
    { destruct (os_RemoveAll _ _) as [res w2] eqn:E. simpl.
      by apply os_RemoveAll_frame in E as [-> _]. }
    destruct (IsRegular fi); [| done].
    destruct (os_RemoveAll _ _) as [res w2] eqn:E. simpl.
    by apply os_RemoveAll_frame in E as [-> _].
  - intros Hc Hr. rewrite Write_steps by done.
    destruct (os_MkdirAll _ _) as [res1 w1] eqn:E1.
    unfold os_MkdirAll in E1. apply update_frame in E1 as [Hm1 _].
    destruct res1 as [[]|e]; [| done].
    destruct (json_MarshalIndent v "" tab) as [b|]; [| done].
    destruct (ioutil_WriteFile _ _ _) as [res2 w2] eqn:E2.
    unfold ioutil_WriteFile in E2. apply update_frame in E2 as [Hm2 _].
    destruct res2 as [[]|e]; [| simpl; by rewrite Hm2].
    destruct (os_Rename _ _ _) as [res3 w3] eqn:E3.
    unfold os_Rename in E3. apply update_frame in E3 as [Hm3 _]. simpl. by rewrite Hm3, Hm2.
  - intros Hempty. unfold Write.
    destruct (decide (c = "")) as [-> | Hc]; [done |].
    destruct Hempty as [? | ->]; [done |].
    by rewrite bool_decide_eq_false_2.
Qed.

(** X13: [Delete] creates nothing and changes no content: every entry of
    the file system after the call is an entry before it, with the same
    node. *)
Theorem Delete_only_removes d c r w :
  files (Delete d c r w).2 ⊆ files w ∧ cwd (Delete d c r w).2 = cwd w.
Proof.
  rewrite Delete_steps.
  pose proof (stat_state (targetPath d c r)
                (set_mutexes ({[c]} ∪ mutexes w) w)) as Hs.
  destruct (stat _ _) as [[fi|e] w1]; simpl in Hs; subst w1; [| done].
  destruct (IsDir fi).
  { destruct (os_RemoveAll _ _) as [res w2] eqn:E. simpl. split.
    - by apply os_RemoveAll_subseteq in E.
    - by apply os_RemoveAll_frame in E as [_ ->]. }
  destruct (IsRegular fi); [| done].
  destruct (os_RemoveAll _ _) as [res w2] eqn:E. simpl. split.
  - by apply os_RemoveAll_subseteq in E.
  - by apply os_RemoveAll_frame in E as [_ ->].
Qed.

(** ** Making directories *)

Lemma existsb_false {A} (f : A → bool) (l : list A) :
  existsb f l = false ↔ ∀ x, x ∈ l → f x = false.
Proof.
  induction l as [|a l IH]; simpl.
  - split; [by intros _ x ?%elem_of_nil | done].
  - rewrite orb_false_iff, IH. split.
    + intros [Ha Hl] x [-> | Hx]%elem_of_cons; auto.
    + intros Hall. split; [apply Hall; left | intros x Hx; apply Hall; by right].
Qed.

Lemma ancestors_prefix (k a : path) :
  a ∈ ancestors k → a `prefix_of` k ∧ length a < length k.
Proof.
  unfold ancestors. intros (n & -> & Hn%elem_of_seq)%list_elem_of_fmap.
  split; [apply prefix_take |]. rewrite length_take. lia.
Qed.

Lemma on_the_way_prefix (k a : path) :
  a ∈ ancestors k ++ [k] → a `prefix_of` k.
Proof.
  intros [Ha | ->%list_elem_of_singleton]%elem_of_app; [| done].
  by apply ancestors_prefix in Ha as [? _].
Qed.

(** What a successful [os.MkdirAll] leaves. *)
Lemma mkdirAll_Ok fs k fs' :
  mkdirAll fs k = Ok fs' →
  (∀ a, a ∈ ancestors k ++ [k] → fs' !! a = Some Dir)
  ∧ (∀ a x, fs !! a = Some x → fs' !! a = Some x)
  ∧ (∀ a, a ∉ ancestors k ++ [k] → fs' !! a = fs !! a)
  ∧ blocked fs' k = false.
Proof.
  unfold mkdirAll.
  destruct (existsb _ _) eqn:E; [done |]. intros [= <-].
  rewrite existsb_false in E.
  assert (∀ a, a ∈ ancestors k ++ [k] →
            foldr (λ k', insert k' Dir) fs (ancestors k ++ [k]) !! a = Some Dir)
    as Hdirs.
  { intros a Ha. rewrite lookup_mkdirs. by rewrite decide_True. }
  split_and!; [done | | |].
  - intros a x Ha. rewrite lookup_mkdirs.
    destruct (decide (a ∈ _)) as [Hin | Hin]; [| done].
    apply E in Hin. unfold isFile in Hin. rewrite Ha in Hin. by destruct x.
  - intros a Ha. rewrite lookup_mkdirs. by rewrite decide_False.
  - unfold blocked. apply existsb_false. intros a Ha.
    apply isFile_Dir, Hdirs, elem_of_app. by left.
Qed.

Lemma mkdirAll_Err fs k e :
  mkdirAll fs k = Err e →
  e = ENOTDIR ∧ existsb (isFile fs) (ancestors k ++ [k]) = true.
Proof. unfold mkdirAll. destruct (existsb _ _); [by intros [= <-] | done]. Qed.

(** Nothing to make: the directories are there. *)
Lemma mkdirAll_id fs k :
  (∀ a, a ∈ ancestors k ++ [k] → fs !! a = Some Dir) → mkdirAll fs k = Ok fs.
Proof.
  intros Hdirs. unfold mkdirAll.
  assert (existsb (isFile fs) (ancestors k ++ [k]) = false) as ->.
  { apply existsb_false. intros a Ha. by apply isFile_Dir, Hdirs. }
  f_equal. apply map_eq. intros a. rewrite lookup_mkdirs.
  destruct (decide (a ∈ _)) as [Hin | Hin]; [| done]. symmetry. by apply Hdirs.
Qed.

Lemma os_MkdirAll_run p w :
  p ≠ "" →
  os_MkdirAll p w =
    match mkdirAll (files w) (resolve (cwd w) p) with
    | Ok fs => (Ok tt, set_files fs w)
    | Err e => (Err e, w)
    end.
Proof.
  intros Hp. unfold os_MkdirAll, update. by rewrite bool_decide_eq_false_2.
Qed.

(** ** New *)

Lemma New_run dir0 w :
  New dir0 w =
    (mkDriver (Clean dir0),
     match access (files w) (resolve (cwd w) (Clean dir0)) with
     | Ok _ => (Ok tt, set_mutexes ∅ w)
     | Err _ =>
         match mkdirAll (files w) (resolve (cwd w) (Clean dir0)) with
         | Ok fs => (Ok tt, set_files fs (set_mutexes ∅ w))
         | Err e => (Err e, set_mutexes ∅ w)
         end
     end).
Proof.
  unfold New. rewrite os_Stat_run.
  rewrite bool_decide_eq_false_2 by apply Clean_nonempty. simpl.
  destruct (access _ _); [done |].
  by rewrite os_MkdirAll_run by apply Clean_nonempty.
Qed.

(** X1: [New] cleans the root path and starts with an empty registry.  It
    removes and changes nothing; what it creates are directories on the way
    to the root.  When it returns no error, something the walk can reach
    exists at the root - a regular file passes as well, and is left as it
    is.  Its only error is [ENOTDIR], when a regular file lies above the
    root; nothing is created then. *)
Theorem New_root dir0 w d res w' K :
  New dir0 w = (d, (res, w')) →
  K = resolve (cwd w) (dir d) →
  dir d = Clean dir0 ∧ dir d ≠ "" ∧ mutexes w' = ∅ ∧ cwd w' = cwd w
  ∧ (∀ k x, files w !! k = Some x → files w' !! k = Some x)
  ∧ (∀ k, files w !! k = None → is_Some (files w' !! k) →
          files w' !! k = Some Dir ∧ k `prefix_of` K)
  ∧ (res = Ok tt → ∃ n, access (files w') K = Ok n)
  ∧ (∀ n, access (files w) K = Ok n → res = Ok tt ∧ files w' = files w)
  ∧ (res ≠ Ok tt →
     res = Err ENOTDIR ∧ files w' = files w ∧ blocked (files w) K = true).
Proof.
  rewrite New_run. intros [= <- Hres] ->. simpl in *.
  split; [done |]. split; [apply Clean_nonempty |].
  destruct (access _ _) as [n|e] eqn:Ha.
  { injection Hres as <- <-. simpl. split_and!; try done.
    - intros k Hk [x Hx]. congruence.
    - intros _. by exists n. }
  destruct (mkdirAll _ _) as [fs|e'] eqn:Hm.
  - injection Hres as <- <-. simpl.
    apply mkdirAll_Ok in Hm as (Hdirs & Hkeep & Hother & Hnb).
    split_and!; try done.
    + intros k Hk Hsome.
      destruct (decide (k ∈ ancestors (resolve (cwd w) (Clean dir0))
                          ++ [resolve (cwd w) (Clean dir0)])) as [Hin | Hin].
      * split; [by apply Hdirs | by apply on_the_way_prefix].
      * rewrite Hother, Hk in Hsome by done. by destruct Hsome.
    + intros _. exists Dir. apply access_Ok_2; [done |].
      apply Hdirs, elem_of_app. right. by apply list_elem_of_singleton.
  - injection Hres as <- <-. simpl.
    apply mkdirAll_Err in Hm as [-> Hex].
    split_and!; try done.
    + intros k Hk [x Hx]. congruence.
    + intros _. split_and!; [done | done |].
      rewrite existsb_app in Hex. simpl in Hex. rewrite orb_false_r in Hex.
      apply orb_true_iff in Hex as [Hb | Hf]; [done |].
      unfold access in Ha. fold (blocked (files w)) in Ha.
      destruct (blocked _ _); [done |].
      unfold isFile in Hf. by destruct (files w !! _) as [[]|].
Qed.

(** X2: [New] on a store that [New] has just opened or made returns no
    error again and changes nothing. *)
Theorem New_again dir0 w d w' :
  New dir0 w = (d, (Ok tt, w')) → New dir0 w' = (d, (Ok tt, w')).
Proof.
  rewrite !New_run. intros [= <- Hres]. f_equal.
  assert (∀ n, cwd w' = cwd w → mutexes w' = ∅ →
               access (files w') (resolve (cwd w) (Clean dir0)) = Ok n →
               match access (files w') (resolve (cwd w') (Clean dir0)) with
               | Ok _ => (Ok tt, set_mutexes ∅ w')
               | Err _ =>
                   match mkdirAll (files w') (resolve (cwd w') (Clean dir0)) with
                   | Ok fs => (Ok tt, set_files fs (set_mutexes ∅ w'))
                   | Err e => (Err e, set_mutexes ∅ w')
                   end
               end = (Ok tt, w')) as Hagain.
  { intros n -> Hms ->. by rewrite <- Hms, set_mutexes_id. }
  destruct (access _ _) as [n|e] eqn:Ha.
  { injection Hres as <-. by apply (Hagain n). }
  destruct (mkdirAll _ _) as [fs|e'] eqn:Hm; [| done].
  injection Hres as <-. apply (Hagain Dir); [done | done |]. simpl.
  apply mkdirAll_Ok in Hm as (Hdirs & _ & _ & Hnb).
  apply access_Ok_2; [done |].
  apply Hdirs, elem_of_app. right. by apply list_elem_of_singleton.
Qed.

(** ** Writing *)

Lemma ioutil_WriteFile_Ok_inv p data w w' :
  ioutil_WriteFile p data w = (Ok tt, w') →
  p ≠ ""
  ∧ blocked (files w) (resolve (cwd w) p) = false
  ∧ files w !! resolve (cwd w) p ≠ Some Dir
  ∧ w' = set_files (<[resolve (cwd w) p := File data]> (files w)) w.
Proof.
  unfold ioutil_WriteFile, update.
  destruct (decide (p = "")) as [-> | Hp]; [done |].
  rewrite bool_decide_eq_false_2 by done. simpl.
  destruct (blocked _ _); [done |].
  destruct (files w !! _) as [[data'|]|] eqn:E; [| done |].
  - by intros [= <-].
  - destruct (isDir _ _); [by intros [= <-] | done].
Qed.

Lemma os_Rename_file_inv old new w data w' :
  files w !! resolve (cwd w) old = Some (File data) →
  os_Rename old new w = (Ok tt, w') →
  files w !! resolve (cwd w) new ≠ Some Dir
  ∧ w' = set_files (<[resolve (cwd w) new := File data]>
                      (delete (resolve (cwd w) old) (files w))) w.
Proof.
  intros Ho. unfold os_Rename, update.
  destruct (_ || _); [done |]. simpl. destruct (_ || _); [done |].
  rewrite Ho.
  destruct (files w !! resolve (cwd w) new) as [[data'|]|] eqn:E; [| done |].
  - by intros [= <-].
  - destruct (isDir _ _); [by intros [= <-] | done].
Qed.

Lemma collectionPath_nonempty d c : c ≠ "" → collectionPath d c ≠ "".
Proof. apply Join_nonempty. Qed.

Lemma finalPath_nonempty d c r : finalPath d c r ≠ "".
Proof. apply Join_nonempty. by destruct r. Qed.

Lemma tempPath_nonempty d c r : tempPath d c r ≠ "".
Proof.
  unfold tempPath. pose proof (finalPath_nonempty d c r) as Hf.
  by destruct (finalPath d c r).
Qed.

Lemma final_ne_temp cwd d c r :
  c ≠ "" → r ≠ "" → resolve cwd (finalPath d c r) ≠ resolve cwd (tempPath d c r).
Proof.
  intros Hc Hr. destruct (final_temp_keys cwd d c r Hc Hr) as (K & n & -> & ->).
  intros [_ E]%app_inj_tail. by apply append_tmp_ne in E.
Qed.

(** A successful [Write], step by step. *)
Lemma Write_Ok_inv {V : Type} `{!Json V} d c r (v : V) w w' :
  (Write d c r v w = (Ok tt, w')) →
  ∃ b fs1,
    c ≠ "" ∧ r ≠ ""
    ∧ json_MarshalIndent v "" tab = Some b
    ∧ mkdirAll (files w) (resolve (cwd w) (collectionPath d c)) = Ok fs1
    ∧ blocked fs1 (resolve (cwd w) (tempPath d c r)) = false
    ∧ fs1 !! resolve (cwd w) (tempPath d c r) ≠ Some Dir
    ∧ fs1 !! resolve (cwd w) (finalPath d c r) ≠ Some Dir
    ∧ w' = set_files
             (<[resolve (cwd w) (finalPath d c r) := File (b +:+ newline)]>
                (delete (resolve (cwd w) (tempPath d c r))
                   (<[resolve (cwd w) (tempPath d c r) := File (b +:+ newline)]>
                      fs1)))
             (set_mutexes ({[c]} ∪ mutexes w) w).
Proof.
  intros HW. destruct (Write_Ok_names _ _ _ _ _ _ HW) as [Hc Hr].
  rewrite Write_steps in HW by done.
  rewrite os_MkdirAll_run in HW by by apply collectionPath_nonempty.
  simpl in HW.
  destruct (mkdirAll _ _) as [fs1|e] eqn:Hm; [| done].
  destruct (json_MarshalIndent v "" tab) as [b|]; [| done].
  destruct (ioutil_WriteFile _ _ _) as [[[]|e] w2] eqn:E2; [| done].
  apply ioutil_WriteFile_Ok_inv in E2 as (_ & Hb & Hnd & ->). simpl in *.
  apply os_Rename_file_inv with (data := b +:+ newline) in HW as [Hfd ->];
    [| simpl; apply lookup_insert_eq].
  simpl in *.
  rewrite lookup_insert_ne in Hfd by (symmetry; by apply final_ne_temp).
  by exists b, fs1.
Qed.

(** X6: a successful [Write] touches one record.  Afterwards the temporary
    path is empty; every other entry of the file system is kept as it was,
    directory or file, but for the final path; and what is new beside the
    final path are directories on the way to the collection. *)
Theorem Write_touches_one_record {V : Type} `{!Json V} d c r (v : V) w w' F T :
  (Write d c r v w = (Ok tt, w')) →
  F = resolve (cwd w) (finalPath d c r) →
  T = resolve (cwd w) (tempPath d c r) →
  F ≠ T
  ∧ files w' !! T = None
  ∧ (∀ k x, k ≠ F → k ≠ T → files w !! k = Some x → files w' !! k = Some x)
  ∧ (∀ k, k ≠ F → files w !! k = None → is_Some (files w' !! k) →
          files w' !! k = Some Dir
          ∧ k `prefix_of` resolve (cwd w) (collectionPath d c)).
Proof.
  intros (b & fs1 & Hc & Hr & _ & Hm & _ & _ & _ & ->)%Write_Ok_inv -> ->.
  simpl. pose proof (final_ne_temp (cwd w) d c r Hc Hr) as Hne.
  apply mkdirAll_Ok in Hm as (Hdirs & Hkeep & Hother & _).
  split_and!; [done | | |].
  - rewrite lookup_insert_ne by done. apply lookup_delete_eq.
  - intros k x HkF HkT Hk.
    rewrite lookup_insert_ne, lookup_delete_ne, lookup_insert_ne by done.
    by apply Hkeep.
  - intros k HkF Hk Hsome. rewrite lookup_insert_ne in Hsome |- * by done.
    destruct (decide (k = resolve (cwd w) (tempPath d c r))) as [-> | HkT].
    { rewrite lookup_delete_eq in Hsome. by destruct Hsome. }
    rewrite lookup_delete_ne, lookup_insert_ne in Hsome |- * by done.
    destruct (decide (k ∈ ancestors (resolve (cwd w) (collectionPath d c))
                        ++ [resolve (cwd w) (collectionPath d c)]))
      as [Hin | Hin].
    + split; [by apply Hdirs | by apply on_the_way_prefix].
    + rewrite Hother, Hk in Hsome by done. by destruct Hsome.
Qed.

(** X7: writing the same value to the same record again changes nothing:
    on a well-formed file system the second [Write] succeeds and leaves the
    state of the first, registry included. *)
Theorem Write_again {V : Type} `{!Json V} d c r (v : V) w w1 :
  wf_fs (files w) = true →
  (Write d c r v w = (Ok tt, w1)) →
  (Write d c r v w1 = (Ok tt, w1)).
Proof.
  intros Hwf HW. pose proof (Write_wf _ _ _ _ _ _ _ Hwf HW) as Hwf1.
  apply Write_Ok_inv in HW
    as (b & fs1 & Hc & Hr & Hb & Hm & _ & HT & HF & ->).
  pose proof (final_ne_temp (cwd w) d c r Hc Hr) as Hne.
  destruct (final_temp_keys (cwd w) d c r Hc Hr) as (K & n & EF & ET).
  apply mkdirAll_Ok in Hm as (Hdirs & _ & _ & _).
  set (F := resolve (cwd w) (finalPath d c r)) in *.
  set (T := resolve (cwd w) (tempPath d c r)) in *.
  set (data := b +:+ newline).
  set (fs2 := <[F := File data]> (delete T (<[T := File data]> fs1))) in *.
  set (w1 := set_files fs2 (set_mutexes ({[c]} ∪ mutexes w) w)).
  assert (fs2 !! F = Some (File data)) as HlF by apply lookup_insert_eq.
  assert (fs2 !! T = None) as HlT.
  { unfold fs2. rewrite lookup_insert_ne by done. apply lookup_delete_eq. }
  assert (fs2 !! K = Some Dir) as HK.
  { apply (wf_fs_parent fs2 K n); [done |]. rewrite <- EF. by rewrite HlF. }
  rewrite Write_steps by done.
  assert (set_mutexes ({[c]} ∪ mutexes w1) w1 = w1) as ->.
  { unfold w1, set_mutexes, set_files. simpl. f_equal.
    apply subseteq_union_1_L, union_subseteq_l. }
  rewrite os_MkdirAll_run by by apply collectionPath_nonempty.
  change (cwd w1) with (cwd w). change (files w1) with fs2.
  rewrite mkdirAll_id.
  2:{ intros a Ha. unfold fs2.
      assert (a ≠ F) by (intros ->; by apply HF, Hdirs).
      assert (a ≠ T) by (intros ->; by apply HT, Hdirs).
      rewrite lookup_insert_ne, lookup_delete_ne, lookup_insert_ne by done.
      by apply Hdirs. }
  assert (set_files fs2 w1 = w1) as -> by done.
  rewrite Hb. fold data.
  assert (ioutil_WriteFile (tempPath d c r) data w1
          = (Ok tt, set_files (<[T := File data]> fs2) w1)) as ->.
  { unfold ioutil_WriteFile, update.
    rewrite bool_decide_eq_false_2 by apply tempPath_nonempty.
    change (cwd w1) with (cwd w). change (files w1) with fs2. fold T. simpl.
    assert (blocked fs2 T = false) as ->.
    { pose proof (wf_fs_not_blocked fs2 F Hwf1) as HbF.
      rewrite EF, blocked_snoc in HbF. rewrite ET, blocked_snoc.
      apply HbF. rewrite <- EF. by rewrite HlF. }
    rewrite HlT. unfold isDir. rewrite ET, parent_snoc, HK. done. }
  set (w2 := set_files (<[T := File data]> fs2) w1).
  assert (wf_fs (<[T := File data]> fs2) = true) as Hwf2.
  { apply insert_file_wf; [done | by rewrite HlT |].
    right. by rewrite ET, parent_snoc. }
  unfold os_Rename, update.
  rewrite (bool_decide_eq_false_2 (tempPath d c r = ""))
    by apply tempPath_nonempty.
  rewrite (bool_decide_eq_false_2 (finalPath d c r = ""))
    by apply finalPath_nonempty.
  simpl.
  change (cwd w2) with (cwd w). fold T F.
  change (files w2) with (<[T := File data]> fs2).
  rewrite !wf_fs_not_blocked; [| done | | done |].
  2:{ rewrite lookup_insert_ne by done. by rewrite HlF. }
  2:{ by rewrite lookup_insert_eq. }
  simpl. rewrite lookup_insert_eq, lookup_insert_ne, HlF by done.
  rewrite delete_insert_id by done. rewrite insert_id by done. done.
Qed.

Lemma wf_fs_ancestors fs (k a : path) :
  wf_fs fs = true → is_Some (fs !! k) → a ∈ ancestors k → fs !! a = Some Dir.
Proof.
  intros Hwf Hk Ha. apply ancestors_prefix in Ha as [[rest ->] Hlen].
  apply (wf_fs_above fs a rest); [done | | done].
  intros ->. rewrite app_nil_r in Hlen. lia.
Qed.

Lemma stat_blocked p w :
  p ≠ "" → blocked (files w) (resolve (cwd w) p) = true →
  stat p w = (Err ENOTDIR, w).
Proof.
  intros Hp Hb. unfold stat. rewrite os_Stat_run.
  rewrite bool_decide_eq_false_2 by done. unfold access. by rewrite Hb.
Qed.

(** X3: a regular file as root is not noticed by [New], which returns no
    error and leaves the file; the store is then unusable: every [Write]
    and [ReadAll] on a plain collection name fails with [ENOTDIR], and the
    [Write] creates nothing. *)
Theorem root_regular_file {V : Type} `{!Json V} dir0 w x c r (v : V) :
  access (files w) (resolve (cwd w) (Clean dir0)) = Ok (File x) →
  plain c = true → r ≠ "" →
  ∃ d w1 w2,
    New dir0 w = (d, (Ok tt, w1))
    ∧ files w1 = files w
    ∧ Write d c r v w1 = (Err ENOTDIR, w2)
    ∧ files w2 = files w
    ∧ ReadAll d c w1 = (Err ENOTDIR, w1).
Proof.
  intros Ha Hc Hr. rewrite New_run, Ha.
  exists (mkDriver (Clean dir0)), (set_mutexes ∅ w).
  pose proof (plain_named c Hc) as Hnc%named_nonempty.
  pose proof (Clean_nonempty dir0) as Hd.
  assert (resolve (cwd w) (collectionPath (mkDriver (Clean dir0)) c)
          = resolve (cwd w) (Clean dir0) ++ [c]) as EK
    by by apply resolve_Join_plain.
  apply access_Ok in Ha as [Hb Hl].
  assert (isFile (files w) (resolve (cwd w) (Clean dir0)) = true) as Hf
    by (unfold isFile; by rewrite Hl).
  rewrite Write_steps by done.
  rewrite os_MkdirAll_run by by apply collectionPath_nonempty.
  simpl. rewrite EK. unfold mkdirAll.
  rewrite ancestors_snoc, !existsb_app. simpl. rewrite Hf, orb_true_r. simpl.
  eexists. split_and!; try done.
  rewrite ReadAll_run by done. rewrite stat_blocked; [done | |].
  - by apply collectionPath_nonempty.
  - simpl. rewrite EK, blocked_snoc, Hf. apply orb_true_r.
Qed.

(** X9: when the final path of a record is a directory (a collection
    named like the record file), [Write] fails at the rename, after the
    temporary file has been written: the temporary file stays behind and
    nothing else changes. *)
Theorem Write_over_directory {V : Type} `{!Json V} d c r (v : V) w b F T :
  c ≠ "" → plain r = true → wf_fs (files w) = true →
  F = resolve (cwd w) (finalPath d c r) →
  T = resolve (cwd w) (tempPath d c r) →
  files w !! F = Some Dir →
  files w !! T ≠ Some Dir →
  json_MarshalIndent v "" tab = Some b →
  ∃ e w', Write d c r v w = (Err e, w')
          ∧ files w' = <[T := File (b +:+ newline)]> (files w).
Proof.
  intros Hc Hr Hwf -> -> HF HT Hb.
  pose proof (plain_named r Hr) as Hnr%named_nonempty.
  pose proof (collectionPath_nonempty d c Hc) as Hcp.
  assert (plain (r +:+ ".json") = true) as Hrj.
  { unfold plain in *. apply andb_true_iff in Hr as [_ Hs].
    rewrite named_json. simpl. by rewrite slashfree_app, Hs. }
  set (K := resolve (cwd w) (collectionPath d c)).
  assert (resolve (cwd w) (finalPath d c r) = K ++ [r +:+ ".json"]) as EF
    by by apply resolve_Join_plain.
  assert (resolve (cwd w) (tempPath d c r) = K ++ [(r +:+ ".json") +:+ ".tmp"])
    as ET by by apply resolve_Join_plain_suffix.
  rewrite EF in HF. rewrite ET in HT. rewrite ET.
  assert (K ++ [r +:+ ".json"] ≠ K ++ [(r +:+ ".json") +:+ ".tmp"]) as Hne.
  { intros [_ E]%app_inj_tail. by apply append_tmp_ne in E. }
  assert (files w !! K = Some Dir) as HK.
  { apply (wf_fs_parent _ K (r +:+ ".json")); [done | by rewrite HF]. }
  assert (blocked (files w) K || isFile (files w) K = false) as HbK.
  { rewrite <- (blocked_snoc _ K (r +:+ ".json")). apply wf_fs_not_blocked; [done | by rewrite HF]. }
  rewrite Write_steps by done. rewrite os_MkdirAll_run by done. simpl.
  fold K. rewrite mkdirAll_id.
  2:{ intros a [Ha | ->%list_elem_of_singleton]%elem_of_app; [| done].
      apply (wf_fs_ancestors _ K); [done | by rewrite HK | done]. }
  rewrite Hb.
  set (w0 := set_files (files w) (set_mutexes ({[c]} ∪ mutexes w) w)).
  assert (ioutil_WriteFile (tempPath d c r) (b +:+ newline) w0
          = (Ok tt, set_files (<[K ++ [(r +:+ ".json") +:+ ".tmp"]
                                 := File (b +:+ newline)]> (files w)) w0)) as ->.
  { unfold ioutil_WriteFile, update.
    rewrite bool_decide_eq_false_2 by apply tempPath_nonempty.
    change (cwd w0) with (cwd w). change (files w0) with (files w).
    rewrite ET. simpl. rewrite blocked_snoc, HbK.
    unfold isDir. rewrite parent_snoc, HK.
    destruct (files w !! (K ++ [(r +:+ ".json") +:+ ".tmp"])) as [[data|]|]
      eqn:E; [done | congruence | done]. }
  exists EISDIR,
    (set_files (<[K ++ [(r +:+ ".json") +:+ ".tmp"]
                  := File (b +:+ newline)]> (files w)) w0).
  split; [| done].
  unfold os_Rename, update.
  rewrite (bool_decide_eq_false_2 (tempPath d c r = ""))
    by apply tempPath_nonempty.
  rewrite (bool_decide_eq_false_2 (finalPath d c r = ""))
    by apply finalPath_nonempty.
  simpl. rewrite EF, ET.
  assert (wf_fs (<[K ++ [(r +:+ ".json") +:+ ".tmp"] := File (b +:+ newline)]>
                   (files w)) = true) as Hwf2.
  { apply insert_file_wf; [done | done |]. right. by rewrite parent_snoc. }
  rewrite !wf_fs_not_blocked; [| done | | done |].
  2:{ rewrite lookup_insert_ne by done. by rewrite HF. }
  2:{ by rewrite lookup_insert_eq. }
  simpl. rewrite lookup_insert_eq, lookup_insert_ne, HF by done. done.
Qed.

(** X20: every operation of the driver keeps the file system well-formed
    (each entry but the root lies in a directory), whatever it returns. *)
Theorem driver_keeps_well_formed {V : Type} `{!Json V} dir0 d c r (v : V) w :
  wf_fs (files w) = true →
  wf_fs (files (New dir0 w).2.2) = true
  ∧ wf_fs (files (Write d c r v w).2) = true
  ∧ wf_fs (files (Read (V := V) d c r w).2) = true
  ∧ wf_fs (files (ReadAll d c w).2) = true
  ∧ wf_fs (files (Delete d c r w).2) = true.
Proof.
  intros Hwf. split_and!.
  - rewrite New_run. simpl. destruct (access _ _); [done |].
    destruct (mkdirAll _ _) as [fs|e1] eqn:Hm; [| done].
    by apply mkdirAll_wf in Hm.
  - destruct (Write d c r v w) as [res w'] eqn:E. by apply Write_wf in E.
  - by rewrite Read_state.
  - by rewrite ReadAll_state.
  - destruct (Delete d c r w) as [res w'] eqn:E. by apply Delete_wf in E.
Qed.

(** ** Removing, continued *)

Lemma append_ne (n s : string) : s ≠ "" → n ≠ n +:+ s.
Proof.
  intros Hs. induction n as [|a n IH]; [by destruct s |].
  rewrite app_cons_str. by intros [= E].
Qed.

Lemma os_Stat_set_mutexes p ms w :
  os_Stat p (set_mutexes ms w) = ((os_Stat p w).1, set_mutexes ms w).
Proof. by rewrite !os_Stat_run. Qed.

Lemma stat_set_mutexes p ms w :
  stat p (set_mutexes ms w) = ((stat p w).1, set_mutexes ms w).
Proof.
  unfold stat. rewrite os_Stat_set_mutexes.
  pose proof (os_Stat_state p w) as Hs.
  destruct (os_Stat p w) as [[fi|e] w1]; simpl in *; subst w1; [done |].
  destruct (IsNotExist e); [| done]. by rewrite os_Stat_set_mutexes.
Qed.

Lemma os_RemoveAll_set_mutexes p ms w :
  os_RemoveAll p (set_mutexes ms w)
  = ((os_RemoveAll p w).1, set_mutexes ms (os_RemoveAll p w).2).
Proof. unfold os_RemoveAll. simpl. by repeat case_match. Qed.

(** [Delete] on the state with the registry of the call taken out. *)
Lemma Delete_files d c r w :
  (Delete d c r w).1 =
    (match stat (targetPath d c r) w with
     | (Err _, _) => Err (UnableToFind (Join c r))
     | (Ok fi, _) =>
         if IsDir fi then (os_RemoveAll (targetPath d c r) w).1
         else if IsRegular fi
         then (os_RemoveAll (targetPath d c r +:+ ".json") w).1
         else Ok tt
     end)
  ∧ files (Delete d c r w).2 =
    (match stat (targetPath d c r) w with
     | (Err _, _) => files w
     | (Ok fi, _) =>
         if IsDir fi then files (os_RemoveAll (targetPath d c r) w).2
         else if IsRegular fi
         then files (os_RemoveAll (targetPath d c r +:+ ".json") w).2
         else files w
     end).
Proof.
  rewrite Delete_steps, stat_set_mutexes.
  pose proof (stat_state (targetPath d c r) w) as Hs.
  destruct (stat (targetPath d c r) w) as [[fi|e] w1]; simpl in *; subst w1;
    [| done].
  rewrite !os_RemoveAll_set_mutexes.
  destruct (IsDir fi); [done |]. by destruct (IsRegular fi).
Qed.

(** X16: [Delete] finds its target by the joined path alone: two calls
    whose names join to the same path return the same and leave the same
    file system, whatever was passed as collection and what as resource. *)
Theorem Delete_by_joined_path d c r c' r' w :
  Join c r = Join c' r' →
  (Delete d c r w).1 = (Delete d c' r' w).1
  ∧ files (Delete d c r w).2 = files (Delete d c' r' w).2.
Proof.
  intros HJ.
  destruct (Delete_files d c r w) as [-> ->].
  destruct (Delete_files d c' r' w) as [-> ->].
  unfold targetPath. by rewrite HJ.
Qed.

Lemma targetPath_split d c r :
  dir d ≠ "" → plain c = true → plain r = true →
  ∃ X, split (targetPath d c r) = X ++ [r].
Proof.
  intros Hd Hc Hr. unfold targetPath. rewrite (Join_plain c r) by done.
  destruct (Join_suffix_split (dir d) (c +:+ "/" +:+ r) [c] r "") as [X HX];
    try done.
  - rewrite split_app_sep, !split_slashfree by by apply plain_slashfree. done.
  - by apply plain_named.
  - exists X. by rewrite !app_empty_r_str in HX.
Qed.

Lemma os_RemoveAll_absent p w X n :
  split p = X ++ [n] → n ≠ "." →
  blocked (files w) (resolve (cwd w) p) = false →
  files w !! resolve (cwd w) p = None →
  os_RemoveAll p w = (Ok tt, w).
Proof.
  intros Hp Hn Hb Hl. unfold os_RemoveAll.
  destruct (bool_decide (p = "")); [done |].
  rewrite (endsWithDot_last p X n) by done. by rewrite Hb, Hl.
Qed.

Lemma json_not_dot r : r +:+ ".json" ≠ ".".
Proof. intros E%named_not_dot; [done | apply named_json]. Qed.

(** X14: two cases in which [Delete] returns no error and removes
    nothing, for plain names.  The bare path [<collection>/<resource>] is a
    regular file and no [.json] file stands beside it: [stat] answers for
    the bare file, and the removal goes to the [.json] path.  Or the bare
    path is missing and [<resource>.json] is a directory: [stat] answers for
    that directory, and the removal goes to the bare path. *)
Theorem Delete_no_error_nothing_removed d c r w R :
  plain c = true → plain r = true → dir d ≠ "" →
  R = resolve (cwd w) (dir d) →
  ((∃ x, access (files w) (R ++ [c; r]) = Ok (File x))
   ∧ files w !! (R ++ [c; r +:+ ".json"]) = None)
  ∨ (access (files w) (R ++ [c]) = Ok Dir
     ∧ files w !! (R ++ [c; r]) = None
     ∧ files w !! (R ++ [c; r +:+ ".json"]) = Some Dir) →
  ∃ w', Delete d c r w = (Ok tt, w') ∧ files w' = files w.
Proof.
  intros Hc Hr Hd -> Hcase.
  assert (targetPath d c r ≠ "") as Hne by by apply Join_nonempty_l.
  assert (∀ x, resolve (cwd w) (dir d) ++ [c; x]
               = (resolve (cwd w) (dir d) ++ [c]) ++ [x]) as Hsnoc
    by (intros x; by rewrite <- app_assoc).
  destruct (targetPath_split d c r) as [X HX]; try done.
  destruct (targetPath_json_split d c r) as [Y HY]; try done.
  rewrite Delete_steps.
  set (w0 := set_mutexes ({[c]} ∪ mutexes w) w).
  destruct Hcase as [[[x Ha] Hj] | (Hcoll & Hbare & Hj)].
  - rewrite (stat_found _ _ (File x)); [| done | by rewrite targetPath_key].
    simpl. exists w0. split; [| done].
    apply (os_RemoveAll_absent _ _ Y (r +:+ ".json"));
      [done | apply json_not_dot | |]; simpl;
      rewrite targetPath_json_key by done; [| done].
    apply access_Ok in Ha as [Hb _].
    rewrite Hsnoc, blocked_snoc in *. done.
  - apply access_Ok in Hcoll as [Hb Hl].
    assert (blocked (files w) (resolve (cwd w) (dir d) ++ [c; r]) = false)
      as Hbb.
    { rewrite Hsnoc, blocked_snoc, Hb. by rewrite (isFile_Dir _ _ Hl). }
    assert (stat (targetPath d c r) w0
            = (Ok (info (base (resolve (cwd w) (dir d) ++ [c; r +:+ ".json"]))
                     Dir), w0)) as ->.
    { unfold stat. rewrite os_Stat_run.
      rewrite bool_decide_eq_false_2 by done. simpl.
      rewrite targetPath_key by done. unfold access at 1.
      rewrite Hbb, Hbare. simpl. rewrite os_Stat_run.
      rewrite bool_decide_eq_false_2 by by destruct (targetPath d c r).
      simpl. rewrite targetPath_json_key by done.
      rewrite (access_Ok_2 _ _ Dir); [done | | done].
      rewrite Hsnoc, blocked_snoc, Hb. by rewrite (isFile_Dir _ _ Hl). }
    simpl. exists w0. split; [| done].
    apply (os_RemoveAll_absent _ _ X r);
      [done | by apply named_not_dot, plain_named | |]; simpl;
      by rewrite targetPath_key.
Qed.





(** X11: a record that has just been written can be deleted: for plain
    names, on a well-formed file system where the bare path
    [<collection>/<resource>] is not a directory, [Delete] after a
    successful [Write] returns no error and removes the record file and
    nothing else. *)
Theorem Write_then_Delete {V : Type} `{!Json V} d c r (v : V) w w1 F :
  plain c = true → plain r = true → dir d ≠ "" →
  wf_fs (files w) = true →
  files w !! (resolve (cwd w) (dir d) ++ [c; r]) ≠ Some Dir →
  (Write d c r v w = (Ok tt, w1)) →
  F = resolve (cwd w) (finalPath d c r) →
  ∃ w2, Delete d c r w1 = (Ok tt, w2)
        ∧ is_Some (files w1 !! F)
        ∧ files w2 = delete F (files w1).
Proof.
  intros Hc Hr Hd Hwf Hbare HW ->.
  pose proof (Write_wf _ _ _ _ _ _ _ Hwf HW) as Hwf1.
  apply Write_Ok_inv in HW
    as (b & fs1 & Hc' & Hr' & Hb & Hm & _ & _ & _ & ->).
  apply mkdirAll_Ok in Hm as (_ & _ & Hother & _).
  set (R := resolve (cwd w) (dir d)) in *.
  set (data := b +:+ newline) in *.
  pose proof (finalPath_key (cwd w) d c r Hd Hc Hr) as EF. fold R in EF.
  assert (resolve (cwd w) (tempPath d c r)
          = R ++ [c; (r +:+ ".json") +:+ ".tmp"]) as ET.
  { unfold tempPath, finalPath, collectionPath.
    assert (plain (r +:+ ".json") = true) as Hrj.
    { unfold plain. rewrite named_json, slashfree_app.
      by rewrite (plain_slashfree _ Hr). }
    rewrite resolve_Join_plain_suffix by (done || by apply Join_nonempty_l).
    rewrite resolve_Join_plain by done. by rewrite <- app_assoc. }
  assert (resolve (cwd w) (collectionPath d c) = R ++ [c]) as EK
    by by apply resolve_Join_plain.
  rewrite EF, ET, EK in *.
  set (fs2 := <[R ++ [c; r +:+ ".json"] := File data]>
                (delete (R ++ [c; (r +:+ ".json") +:+ ".tmp"])
                   (<[R ++ [c; (r +:+ ".json") +:+ ".tmp"] := File data]> fs1))).
  set (w1 := set_files fs2 (set_mutexes ({[c]} ∪ mutexes w) w)).
  change (files w1) with fs2.
  assert (fs2 !! (R ++ [c; r +:+ ".json"]) = Some (File data)) as HlF
    by apply lookup_insert_eq.
  assert (fs2 !! (R ++ [c; r]) ≠ Some Dir) as Hbare2.
  { unfold fs2.
    assert (∀ x y, x ≠ y → R ++ [c; x] ≠ R ++ [c; y]) as Hinj.
    { intros x y Hxy E. apply app_inv_head in E. congruence. }
    rewrite lookup_insert_ne, lookup_delete_ne, lookup_insert_ne.
    - rewrite Hother; [done |]. intros Hin%on_the_way_prefix.
      apply prefix_length in Hin. rewrite !length_app in Hin. simpl in Hin. lia.
    - apply Hinj. symmetry. rewrite app_assoc_str. by apply append_ne.
    - apply Hinj. symmetry. rewrite app_assoc_str. by apply append_ne.
    - apply Hinj. symmetry. by apply append_ne. }
  assert (fs2 !! (R ++ [c]) = Some Dir) as Hcoll.
  { apply (wf_fs_parent fs2 (R ++ [c]) (r +:+ ".json")); [done |].
    rewrite <- app_assoc. simpl. by rewrite HlF. }
  assert (targetPath d c r ≠ "") as Hne by by apply Join_nonempty_l.
  rewrite Delete_steps.
  destruct (stat_file_or_absent (targetPath d c r)
              (set_mutexes ({[c]} ∪ mutexes w1) w1) data)
    as (fi & -> & -> & ->); simpl.
  - done.
  - rewrite targetPath_key by done. fold R.
    replace (R ++ [c; r]) with ((R ++ [c]) ++ [r]) by by rewrite <- app_assoc.
    rewrite blocked_snoc, (isFile_Dir _ _ Hcoll), orb_false_r.
    apply wf_fs_not_blocked; [done | by rewrite Hcoll].
  - by rewrite targetPath_key.
  - rewrite targetPath_json_key by done. by apply wf_fs_access.
  - destruct (targetPath_json_split d c r) as [X HX]; try done.
    rewrite (os_RemoveAll_named _ _ X (r +:+ ".json") (File data)); simpl.
    + eexists. split; [done |]. split; [by rewrite HlF |]. simpl.
      rewrite targetPath_json_key by done. by eapply prune_file.
    + done.
    + apply named_json.
    + rewrite targetPath_json_key by done. by apply wf_fs_access.
Qed.

(** ** Reading, continued *)

Lemma ioutil_ReadFile_dir p w :
  p ≠ "" → access (files w) (resolve (cwd w) p) = Ok Dir →
  ioutil_ReadFile p w = (Err EISDIR, w).
Proof.
  intros Hp Ha. unfold ioutil_ReadFile, query.
  by rewrite bool_decide_eq_false_2, Ha.
Qed.

(** The loop of [ReadAll] stops at the first entry that is a directory. *)
Lemma readEach_directory dirp w names acc :
  dirp ≠ "" →
  access (files w) (resolve (cwd w) dirp) = Ok Dir →
  Forall (λ n, plain n = true
               ∧ is_Some (files w !! (resolve (cwd w) dirp ++ [n]))) names →
  (∃ n, n ∈ names ∧ files w !! (resolve (cwd w) dirp ++ [n]) = Some Dir) →
  readEach dirp
    ((λ n, info n (default Dir (files w !! (resolve (cwd w) dirp ++ [n]))))
       <$> names) acc w
  = (Err EISDIR, w).
Proof.
  intros Hp Hdir Hall. revert acc.
  induction Hall as [|n names [Hn [nd Hnd]] Hall IH]; intros acc (m & Hm & Hmd).
  { by apply elem_of_nil in Hm. }
  simpl. unfold bind. rewrite Name_info.
  assert (access (files w) (resolve (cwd w) (Join dirp n)) = Ok nd) as Ha.
  { rewrite resolve_Join_plain by done. rewrite access_child by done.
    by rewrite Hnd. }
  destruct nd as [data|].
  - rewrite (ioutil_ReadFile_file _ _ data); [| by apply Join_nonempty_l | done].
    apply IH. exists m. split; [| done].
    apply elem_of_cons in Hm as [-> | Hm]; [congruence | done].
  - by rewrite ioutil_ReadFile_dir; [| by apply Join_nonempty_l |].
Qed.

(** X17: a directory inside a collection makes the whole collection
    unreadable: when the entries have plain names and one of them is a
    directory, [ReadAll] fails with [EISDIR] and returns no record. *)
Theorem ReadAll_subdirectory d c w K :
  c ≠ "" →
  K = resolve (cwd w) (collectionPath d c) →
  access (files w) K = Ok Dir →
  Forall (λ n, plain n = true) (entries (files w) K) →
  (∃ n, files w !! (K ++ [n]) = Some Dir) →
  ReadAll d c w = (Err EISDIR, w).
Proof.
  intros Hc -> Ha Hall [n Hn].
  pose proof (collectionPath_nonempty d c Hc) as Hp.
  rewrite ReadAll_run by done.
  rewrite (stat_found _ _ Dir) by done.
  rewrite ioutil_ReadDir_dir by done.
  apply readEach_directory; [done | done | |].
  - apply Forall_forall. intros m Hm. split.
    + by apply (proj1 (Forall_forall _ _) Hall).
    + by apply entries_spec.
  - exists n. split; [| done]. apply entries_spec. by rewrite Hn.
Qed.

(** X12: a record that has just been written is among the records of
    its collection: for plain names, on a well-formed file system whose
    collection directory held only regular files with plain names (or did
    not exist), [ReadAll] after a successful [Write] returns no error, one
    blob for each entry of the directory, and the encoding of the written
    value with its newline among them. *)
Theorem Write_then_ReadAll {V : Type} `{!Json V} d c r (v : V) w w1 K :
  plain c = true → plain r = true → dir d ≠ "" →
  wf_fs (files w) = true →
  K = resolve (cwd w) (collectionPath d c) →
  Forall (λ n, plain n = true ∧ isFile (files w) (K ++ [n]) = true)
         (entries (files w) K) →
  (Write d c r v w = (Ok tt, w1)) →
  ∃ b blobs,
    json_MarshalIndent v "" tab = Some b
    ∧ ReadAll d c w1 = (Ok blobs, w1)
    ∧ b +:+ newline ∈ blobs
    ∧ length blobs = length (entries (files w1) K).
Proof.
  intros Hc Hr Hd Hwf -> Hall HW.
  pose proof (Write_wf _ _ _ _ _ _ _ Hwf HW) as Hwf1.
  apply Write_Ok_inv in HW
    as (b & fs1 & Hc' & Hr' & Hb & Hm & _ & _ & _ & ->).
  apply mkdirAll_Ok in Hm as (_ & _ & Hother & _).
  set (K := resolve (cwd w) (collectionPath d c)) in *.
  set (data := b +:+ newline) in *.
  assert (plain (r +:+ ".json") = true) as Hrj.
  { unfold plain. rewrite named_json, slashfree_app.
    by rewrite (plain_slashfree _ Hr). }
  pose proof (collectionPath_nonempty d c Hc') as Hp.
  assert (resolve (cwd w) (finalPath d c r) = K ++ [r +:+ ".json"]) as EF
    by by apply resolve_Join_plain.
  assert (resolve (cwd w) (tempPath d c r) = K ++ [(r +:+ ".json") +:+ ".tmp"])
    as ET by by apply resolve_Join_plain_suffix.
  rewrite EF, ET in *.
  set (fs2 := <[K ++ [r +:+ ".json"] := File data]>
                (delete (K ++ [(r +:+ ".json") +:+ ".tmp"])
                   (<[K ++ [(r +:+ ".json") +:+ ".tmp"] := File data]> fs1))).
  set (w1 := set_files fs2 (set_mutexes ({[c]} ∪ mutexes w) w)).
  change (files w1) with fs2.
  assert (fs2 !! (K ++ [r +:+ ".json"]) = Some (File data)) as HlF
    by apply lookup_insert_eq.
  assert (access fs2 K = Ok Dir) as Ha.
  { apply wf_fs_access; [done |].
    apply (wf_fs_parent fs2 K (r +:+ ".json")); [done | by rewrite HlF]. }
  assert (Forall (λ n, plain n = true ∧ isFile fs2 (K ++ [n]) = true)
            (entries fs2 K)) as Hall2.
  { apply Forall_forall. intros n Hn%entries_spec.
    destruct (decide (n = r +:+ ".json")) as [-> | HnF].
    { split; [done |]. unfold isFile. by rewrite HlF. }
    assert (K ++ [n] ≠ K ++ [r +:+ ".json"]) as HkF
      by (intros [_ E]%app_inj_tail; done).
    unfold fs2, isFile in *. rewrite lookup_insert_ne in Hn |- * by done.
    destruct (decide (n = (r +:+ ".json") +:+ ".tmp")) as [-> | HnT].
    { rewrite lookup_delete_eq in Hn. by destruct Hn. }
    assert (K ++ [n] ≠ K ++ [(r +:+ ".json") +:+ ".tmp"]) as HkT
      by (intros [_ E]%app_inj_tail; done).
    rewrite lookup_delete_ne, lookup_insert_ne in Hn |- * by done.
    rewrite Hother in Hn |- *.
    2,3: intros Hin%on_the_way_prefix; apply prefix_length in Hin;
         rewrite length_app in Hin; simpl in Hin; lia.
    apply entries_spec in Hn.
    apply (proj1 (Forall_forall _ _) Hall) in Hn as [? Hf]. done. }
  exists b, ((λ n, content fs2 (K ++ [n])) <$> entries fs2 K).
  split; [done |]. split_and!.
  - rewrite ReadAll_run by done.
    rewrite (stat_found _ _ Dir) by done.
    rewrite ioutil_ReadDir_dir by done.
    by rewrite (readEach_files _ w1).
  - apply list_elem_of_fmap. exists (r +:+ ".json"). split.
    + unfold content. by rewrite HlF.
    + apply entries_spec. by rewrite HlF.
  - by rewrite length_fmap.
Qed.

(** X19: what [Read] returns: for a plain collection name under a root
    directory, when a regular file [<root>/<collection>.json] exists,
    [Read] decodes that file, for every resource name but the empty one;
    content that does not decode is an error.  No record file of the
    collection is looked at. *)
Theorem Read_collection_file {V : Type} `{!Json V} d c r w R data :
  plain c = true → r ≠ "" → dir d ≠ "" →
  R = resolve (cwd w) (dir d) →
  access (files w) R = Ok Dir →
  files w !! (R ++ [c +:+ ".json"]) = Some (File data) →
  Read (V := V) d c r w =
    (match json_Unmarshal data with
     | Some v => Ok v
     | None => Err UnmarshalError
     end, w).
Proof.
  intros Hc Hr Hd -> HR Hfile.
  pose proof (plain_named c Hc) as Hnc%named_nonempty.
  pose proof (collectionPath_nonempty d c Hnc) as Hp.
  rewrite Read_run by done.
  assert (resolve (cwd w) (collectionPath d c +:+ ".json")
          = resolve (cwd w) (dir d) ++ [c +:+ ".json"]) as EJ
    by (by apply resolve_Join_plain_suffix).
  assert (access (files w) (resolve (cwd w) (collectionPath d c +:+ ".json"))
          = Ok (File data)) as Hj.
  { rewrite EJ, access_child by done. by rewrite Hfile. }
  assert (∃ fi, stat (collectionPath d c) w = (Ok fi, w)) as [fi ->].
  { unfold stat. rewrite os_Stat_run.
    rewrite bool_decide_eq_false_2 by done.
    unfold collectionPath at 1. rewrite resolve_Join_plain by done.
    rewrite access_child by done.
    destruct (files w !! (resolve (cwd w) (dir d) ++ [c])) as [nd|];
      [by eexists |].
    simpl. rewrite os_Stat_run.
    rewrite bool_decide_eq_false_2 by by destruct (collectionPath d c).
    rewrite Hj. by eexists. }
  rewrite (ioutil_ReadFile_file _ _ data);
    [| by destruct (collectionPath d c) | done].
  by destruct (json_Unmarshal data).
Qed.

(** X18: [ReadAll] returns the records in the order of their file
    names: when the collection directory holds regular files with plain
    names, the result is the content of each entry, the entries taken in
    ascending order of name. *)
Theorem ReadAll_in_name_order d c w K :
  c ≠ "" →
  K = resolve (cwd w) (collectionPath d c) →
  access (files w) K = Ok Dir →
  Forall (λ n, plain n = true ∧ isFile (files w) (K ++ [n]) = true)
         (entries (files w) K) →
  ∃ names,
    ReadAll d c w = (Ok ((λ n, content (files w) (K ++ [n])) <$> names), w)
    ∧ StronglySorted String.le names
    ∧ NoDup names
    ∧ ∀ n, n ∈ names ↔ is_Some (files w !! (K ++ [n])).
Proof.
  intros Hc -> Ha Hall. exists (entries (files w) (resolve (cwd w) (collectionPath d c))).
  pose proof (collectionPath_nonempty d c Hc) as Hp.
  split_and!.
  - rewrite ReadAll_run by done.
    rewrite (stat_found _ _ Dir) by done.
    rewrite ioutil_ReadDir_dir by done.
    by rewrite readEach_files.
  - apply StronglySorted_merge_sort; apply _.
  - apply entries_NoDup.
  - intros n. apply entries_spec.
Qed.

Lemma walk_dotdot pos : walk pos ".." = tail pos.
Proof. done. Qed.

Lemma finalPath_parent_key cwd d c x :
  dir d ≠ "" → plain c = true → plain x = true →
  resolve cwd (finalPath d c ("../" +:+ x)) = resolve cwd (dir d) ++ [x +:+ ".json"].
Proof.
  intros Hd Hc Hx. unfold finalPath.
  change (("../" +:+ x) +:+ ".json") with (".." +:+ "/" +:+ (x +:+ ".json")).
  assert (plain (x +:+ ".json") = true) as Hxj.
  { unfold plain. rewrite named_json, slashfree_app.
    by rewrite (plain_slashfree _ Hx). }
  pose proof (plain_named c Hc) as Hnc%named_nonempty.
  rewrite resolve_Join by by apply collectionPath_nonempty.
  rewrite walk_app_sep, walk_dotdot, (walk_plain _ (x +:+ ".json")) by done.
  assert (walk (start cwd (collectionPath d c)) (collectionPath d c)
          = c :: reverse (resolve cwd (dir d))) as ->.
  { rewrite <- (reverse_involutive (walk _ _)), <- resolve_start.
    unfold collectionPath. rewrite resolve_Join_plain by done.
    by rewrite reverse_app. }
  simpl. by rewrite reverse_cons, reverse_involutive.
Qed.

(** X10: a resource name is not confined to its collection: for plain
    names [c] and [x], a successful [Write] of the resource ["../x"] of
    collection [c] stores the record as [x.json] in the root of the store,
    not in the collection. *)
Theorem Write_parent_resource {V : Type} `{!Json V} d c x (v : V) w w' R :
  plain c = true → plain x = true → dir d ≠ "" →
  R = resolve (cwd w) (dir d) →
  (Write d c ("../" +:+ x) v w = (Ok tt, w')) →
  resolve (cwd w) (finalPath d c ("../" +:+ x)) = R ++ [x +:+ ".json"]
  ∧ ∃ b, json_MarshalIndent v "" tab = Some b
         ∧ files w' !! (R ++ [x +:+ ".json"]) = Some (File (b +:+ newline)).
Proof.
  intros Hc Hx Hd -> HW.
  pose proof (finalPath_parent_key (cwd w) d c x Hd Hc Hx) as EF.
  split; [done |].
  apply Write_Ok_inv in HW as (b & fs1 & _ & _ & Hb & _ & _ & _ & _ & ->).
  exists b. split; [done |]. simpl. rewrite EF. apply lookup_insert_eq.
Qed.

(** ** The extra properties on the example stores *)

(** X1, witness. *)
Lemma New_root_witness :
  dir data_driver = Clean "./data" ∧ dir data_driver ≠ ""
  ∧ mutexes data_world = ∅ ∧ cwd data_world = cwd boot
  ∧ (∀ k x, files boot !! k = Some x → files data_world !! k = Some x)
  ∧ (∀ k, files boot !! k = None → is_Some (files data_world !! k) →
          files data_world !! k = Some Dir ∧ k `prefix_of` ["home"; "data"])
  ∧ (Ok tt = Ok tt → ∃ n, access (files data_world) ["home"; "data"] = Ok n)
  ∧ (∀ n, access (files boot) ["home"; "data"] = Ok n →
          Ok tt = Ok tt ∧ files data_world = files boot)
  ∧ (Ok tt ≠ Ok tt →
     Ok tt = Err ENOTDIR ∧ files data_world = files boot
     ∧ blocked (files boot) ["home"; "data"] = true).
Proof.
  apply (New_root "./data" boot data_driver (Ok tt) data_world ["home"; "data"]);
    reflexivity.
Defined.

(** X2, witness. *)
Lemma New_again_witness :
  New "./data" data_world = (data_driver, (Ok tt, data_world)).
Proof. apply (New_again "./data" boot data_driver data_world). reflexivity. Defined.

(** X4, witness. *)
Lemma registry_grows_witness :
  mutexes (Delete data_driver "users" "ghost" john_world).2
  = {[ "users" ]} ∪ mutexes john_world
  ∧ mutexes (Write data_driver "teams" "a" Unsupported john_world).2
    = {[ "teams" ]} ∪ mutexes john_world
  ∧ mutexes (Write data_driver "teams" "" (Text "A") john_world).2
    = mutexes john_world.
Proof.
  destruct (registry_grows data_driver "users" "ghost" Unsupported john_world)
    as (HD & _ & _).
  destruct (registry_grows data_driver "teams" "a" Unsupported john_world)
    as (_ & HW & _).
  destruct (registry_grows data_driver "teams" "" (Text "A") john_world)
    as (_ & _ & HE).
  split_and!.
  - exact HD.
  - apply HW; discriminate.
  - apply HE. right. reflexivity.
Defined.

(** X3, witness. *)
Lemma root_regular_file_witness :
  ∃ d w1 w2,
    New "./data" file_root_world = (d, (Ok tt, w1))
    ∧ files w1 = files file_root_world
    ∧ Write d "users" "john" (Text "John") w1 = (Err ENOTDIR, w2)
    ∧ files w2 = files file_root_world
    ∧ ReadAll d "users" w1 = (Err ENOTDIR, w1).
Proof.
  apply (root_regular_file "./data" file_root_world "notes" "users" "john"
           (Text "John")); reflexivity || discriminate.
Defined.

(** X6, witness. *)
Lemma Write_touches_one_record_witness :
  ["home"; "data"; "users"; "bob.json"]
  ≠ ["home"; "data"; "users"; "bob.json.tmp"]
  ∧ files pair_world !! ["home"; "data"; "users"; "bob.json.tmp"] = None
  ∧ (∀ k x, k ≠ ["home"; "data"; "users"; "bob.json"] →
            k ≠ ["home"; "data"; "users"; "bob.json.tmp"] →
            files john_world !! k = Some x → files pair_world !! k = Some x)
  ∧ (∀ k, k ≠ ["home"; "data"; "users"; "bob.json"] →
          files john_world !! k = None → is_Some (files pair_world !! k) →
          files pair_world !! k = Some Dir
          ∧ k `prefix_of` resolve (cwd john_world)
                            (collectionPath data_driver "users")).
Proof.
  apply (Write_touches_one_record data_driver "users" "bob" (Text "Bob")
           john_world pair_world); reflexivity.
Defined.

(** X7, witness. *)
Lemma Write_again_witness :
  (Write data_driver "users" "john" (Text "John") john_world
   = (Ok tt, john_world)).
Proof.
  apply (Write_again data_driver "users" "john" (Text "John") data_world);
    reflexivity.
Defined.

(** X8, witness. *)
Lemma Write_failure_keeps_final_witness :
  files (Write data_driver "users" "john" Unsupported john_world).2
    !! resolve (cwd john_world) (finalPath data_driver "users" "john")
  = Some (File (String quote ("John" +:+ String quote newline)))
  ↔ files john_world
      !! resolve (cwd john_world) (finalPath data_driver "users" "john")
    = Some (File (String quote ("John" +:+ String quote newline))).
Proof.
  apply (Write_failure_keeps_final data_driver "users" "john" Unsupported
           john_world MarshalError). reflexivity.
Defined.

(** X9, witness. *)
Lemma Write_over_directory_witness :
  ∃ e w', Write data_driver "users" "john" (Text "John") nested_world
          = (Err e, w')
        ∧ files w'
          = <[ ["home"; "data"; "users"; "john.json.tmp"]
               := File (String quote ("John" +:+ String quote "") +:+ newline) ]>
              (files nested_world).
Proof.
  apply (Write_over_directory data_driver "users" "john" (Text "John")
           nested_world (String quote ("John" +:+ String quote ""))
           ["home"; "data"; "users"; "john.json"]);
    reflexivity || discriminate.
Defined.

(** X20, witness. *)
Lemma driver_keeps_well_formed_witness :
  wf_fs (files (New "./data" john_world).2.2) = true
  ∧ wf_fs (files (Write data_driver "users" "bob" (Text "Bob") john_world).2)
    = true
  ∧ wf_fs (files (Read (V := sample) data_driver "users" "bob" john_world).2)
    = true
  ∧ wf_fs (files (ReadAll data_driver "users" john_world).2) = true
  ∧ wf_fs (files (Delete data_driver "users" "bob" john_world).2) = true.
Proof.
  apply (driver_keeps_well_formed "./data" data_driver "users" "bob" (Text "Bob")
           john_world). reflexivity.
Defined.

(** X11, witness. *)
Lemma Write_then_Delete_witness :
  ∃ w2, Delete data_driver "users" "john" john_world = (Ok tt, w2)
        ∧ is_Some (files john_world !! ["home"; "data"; "users"; "john.json"])
        ∧ files w2 = delete ["home"; "data"; "users"; "john.json"]
                       (files john_world).
Proof.
  apply (Write_then_Delete data_driver "users" "john" (Text "John") data_world
           john_world); reflexivity || discriminate.
Defined.

(** X14, witness. *)
Lemma Delete_no_error_nothing_removed_witness :
  (∃ w', Delete data_driver "users" "john" bare_world = (Ok tt, w')
         ∧ files w' = files bare_world)
  ∧ (∃ w', Delete data_driver "users" "john" nested_world = (Ok tt, w')
           ∧ files w' = files nested_world).
Proof.
  split.
  - apply (Delete_no_error_nothing_removed data_driver "users" "john" bare_world
             ["home"; "data"]); try reflexivity; [discriminate |].
    left. split; [by exists "John" | reflexivity].
  - apply (Delete_no_error_nothing_removed data_driver "users" "john"
             nested_world ["home"; "data"]); try reflexivity; [discriminate |].
    right. split_and!; reflexivity.
Defined.


(** X16, witness. *)
Lemma Delete_by_joined_path_witness :
  (Delete data_driver "" "users" john_world).1
  = (Delete data_driver "users" "" john_world).1
  ∧ files (Delete data_driver "" "users" john_world).2
    = files (Delete data_driver "users" "" john_world).2.
Proof.
  apply (Delete_by_joined_path data_driver "" "users" "users" "" john_world).
  reflexivity.
Defined.

(** X17, witness. *)
Lemma ReadAll_subdirectory_witness :
  ReadAll data_driver "users" clash_world = (Err EISDIR, clash_world).
Proof.
  apply (ReadAll_subdirectory data_driver "users" clash_world
           ["home"; "data"; "users"]); try reflexivity; [discriminate | |].
  - vm_compute. repeat constructor.
  - exists "john". reflexivity.
Defined.

(** X12, witness. *)
Lemma Write_then_ReadAll_witness :
  ∃ b blobs,
    json_MarshalIndent (Text "Bob") "" tab = Some b
    ∧ ReadAll data_driver "users" pair_world = (Ok blobs, pair_world)
    ∧ b +:+ newline ∈ blobs
    ∧ length blobs = length (entries (files pair_world) ["home"; "data"; "users"]).
Proof.
  apply (Write_then_ReadAll data_driver "users" "bob" (Text "Bob") john_world
           pair_world ["home"; "data"; "users"]);
    try reflexivity; [discriminate |].
  vm_compute. repeat constructor.
Defined.

(** X19, witness. *)
Lemma Read_collection_file_witness :
  Read (V := sample) data_driver "users" "john" stray_world
  = (match json_Unmarshal (String quote ("Stray" +:+ String quote newline)) with
     | Some v => Ok v
     | None => Err UnmarshalError
     end, stray_world).
Proof.
  apply (Read_collection_file data_driver "users" "john" stray_world
           ["home"; "data"]); reflexivity || discriminate.
Defined.

(** X18, witness. *)
Lemma ReadAll_in_name_order_witness :
  ∃ names,
    ReadAll data_driver "users" pair_world
    = (Ok ((λ n, content (files pair_world) (["home"; "data"; "users"] ++ [n]))
             <$> names), pair_world)
    ∧ StronglySorted String.le names
    ∧ NoDup names
    ∧ ∀ n, n ∈ names
           ↔ is_Some (files pair_world !! (["home"; "data"; "users"] ++ [n])).
Proof.
  apply (ReadAll_in_name_order data_driver "users" pair_world
           ["home"; "data"; "users"]); try reflexivity; [discriminate |].
  vm_compute. repeat constructor.
Defined.

(** X10, witness. *)
Lemma Write_parent_resource_witness :
  resolve (cwd data_world) (finalPath data_driver "users" "../john")
  = ["home"; "data"] ++ ["john.json"]
  ∧ ∃ b, json_MarshalIndent (Text "John") "" tab = Some b
         ∧ files (Write data_driver "users" "../john" (Text "John") data_world).2
             !! (["home"; "data"] ++ ["john.json"])
           = Some (File (b +:+ newline)).
Proof.
  apply (Write_parent_resource data_driver "users" "john" (Text "John")
           data_world); reflexivity || discriminate.
Defined.

(** The records of [pair_world] come back in the order [bob], [john]. *)
Example ReadAll_pair :
  (ReadAll data_driver "users" pair_world).1
  = Ok [String quote ("Bob" +:+ String quote newline);
        String quote ("John" +:+ String quote newline)].
Proof. vm_compute. reflexivity. Qed.
